(** * image-optimization: the edge normalizer and the image-processing handler

    A shallow embedding of

    - [functions/url-rewrite/index.js], the CloudFront function that rewrites
      the query string of an image request into a canonical operation
      segment of the URI (module [UrlRewrite]);
    - [functions/image-processing/index.js], the Lambda handler that fetches
      an original image, transforms it and writes the result back to the
      store (module [ImageProcessing], the CommonJS handler with the
      [TRANSFORMED_FOLDER_PREFIX] constant, lines 349-573 of the file);
    - the two further variants kept in the same file that the specification
      also draws on: the ES-module handler of lines 574-747 (module
      [ImageProcessingEsm]) and the older URL rewriter of lines 747-826
      (module [UrlRewriteLegacy]);
    - [transformImage] of the two instrumented variants at the head of the
      same file, lines 59-172 and 238-338 (module
      [ImageProcessingInstrumented]).

    Modelling conventions.

    - A JavaScript string is a [string] whose characters are read as UTF-16
      code units below 256 (the Latin-1 range); [toLowerCase] and the white
      space skipped by [parseInt] are the ones of that range.
    - A JavaScript number produced by [parseInt] is [NaN] or an exact
      integer, and [toString] prints an integer in plain decimal.  This is
      what the program does up to [Number.MAX_SAFE_INTEGER] = 2^53 - 1;
      above it the program rounds to a double, and prints 1e21 and more
      in exponent form, which is not modelled.
    - A value that may be [undefined] is an [option].
    - A JavaScript object used as a dictionary is an association list with
      distinct keys kept in insertion order ([JsObject]).
    - The object store and the image codec are oracles of a [World]; every
      call to them is recorded in a trace.  A thrown exception is the
      outcome [Throw]; [console.log] output is not recorded. *)

From Stdlib Require Import ZArith List String Ascii Bool Lia Permutation.
From Stdlib Require Import DecimalString DecimalPos DecimalZ.
Import ListNotations.

Open Scope string_scope.
Open Scope Z_scope.

(* ================================================================== *)
(** ** JavaScript strings and numbers *)

Module JsString.

Definition code (c : ascii) : Z := Z.of_N (N_of_ascii c).

(** [String.prototype.startsWith] *)
Definition startsWith (s p : string) : bool := String.prefix p s.

Fixpoint drop (n : nat) (s : string) : string :=
  match n, s with
  | O, _ => s
  | S n', String _ s' => drop n' s'
  | S _, EmptyString => EmptyString
  end.

Fixpoint take (n : nat) (s : string) : string :=
  match n, s with
  | O, _ => EmptyString
  | S n', String c s' => String c (take n' s')
  | S _, EmptyString => EmptyString
  end.

(** [String.prototype.indexOf]: position of the first occurrence. *)
Fixpoint indexOf (pat s : string) : option nat :=
  if String.prefix pat s then Some O
  else match s with
       | EmptyString => None
       | String _ s' => option_map S (indexOf pat s')
       end.

(** [String.prototype.includes] *)
Definition includes (s pat : string) : bool :=
  match indexOf pat s with Some _ => true | None => false end.

(** [String.prototype.endsWith] *)
Definition endsWith (s p : string) : bool :=
  (String.length p <=? String.length s)%nat
  && String.eqb (drop (String.length s - String.length p) s) p.

(** [String.prototype.split] with a one-character separator: the result
    always has at least one element. *)
Fixpoint split (sep : ascii) (s : string) : list string :=
  match s with
  | EmptyString => [EmptyString]
  | String c s' =>
      if Ascii.eqb c sep then EmptyString :: split sep s'
      else match split sep s' with
           | h :: t => String c h :: t
           | [] => [String c EmptyString]
           end
  end.

(** [Array.prototype.join] *)
Definition join (sep : string) (l : list string) : string :=
  String.concat sep l.

(** [String.prototype.replace] with a string pattern: only the first
    occurrence is replaced (the replacement texts used by the program
    contain no dollar sign, so they are taken literally). *)
Fixpoint replace (pat rep s : string) : string :=
  if String.prefix pat s then rep ++ drop (String.length pat) s
  else match s with
       | EmptyString => EmptyString
       | String c s' => String c (replace pat rep s')
       end.

(** [s.replace(/c/g, rep)] for a one-character pattern. *)
Fixpoint replaceAll (c : ascii) (rep : string) (s : string) : string :=
  match s with
  | EmptyString => EmptyString
  | String a s' =>
      (if Ascii.eqb a c then rep else String a EmptyString)
        ++ replaceAll c rep s'
  end.

Definition lowerChar (c : ascii) : ascii :=
  let n := code c in
  if ((65 <=? n) && (n <=? 90))
     || ((192 <=? n) && (n <=? 222) && negb (n =? 215))
  then ascii_of_N (Z.to_N (n + 32)) else c.

(** [String.prototype.toLowerCase] *)
Fixpoint toLowerCase (s : string) : string :=
  match s with
  | EmptyString => EmptyString
  | String c s' => String (lowerChar c) (toLowerCase s')
  end.

(** Numbers as [parseInt] produces them. *)
Inductive number : Type :=
| NaN : number
| Num : Z -> number.

Definition isNaN (n : number) : bool :=
  match n with NaN => true | Num _ => false end.

(** [n > k] for an integer [k]; every comparison with [NaN] is false. *)
Definition gt (n : number) (k : Z) : bool :=
  match n with NaN => false | Num z => k <? z end.

(** Truthiness of a number: [NaN] and [0] are falsy. *)
Definition truthyNumber (n : number) : bool :=
  match n with NaN => false | Num z => negb (z =? 0) end.

Definition isWhiteSpace (c : ascii) : bool :=
  let n := code c in
  ((9 <=? n) && (n <=? 13)) || (n =? 32) || (n =? 160).

Fixpoint trimStart (s : string) : string :=
  match s with
  | String c s' => if isWhiteSpace c then trimStart s' else s
  | EmptyString => EmptyString
  end.

Definition digitValue (c : ascii) : option Z :=
  let n := code c in
  if (48 <=? n) && (n <=? 57) then Some (n - 48)
  else if (97 <=? n) && (n <=? 122) then Some (n - 87)
  else if (65 <=? n) && (n <=? 90) then Some (n - 55)
  else None.

(** Value of the longest prefix of radix-[R] digits; [acc] is [None]
    until a first digit has been read. *)
Fixpoint digits (R : Z) (s : string) (acc : option Z) : option Z :=
  match s with
  | String c s' =>
      match digitValue c with
      | Some d =>
          if d <? R
          then digits R s' (Some (match acc with
                                  | Some a => a * R + d
                                  | None => d
                                  end))
          else acc
      | None => acc
      end
  | EmptyString => acc
  end.

(** [parseInt(s)] without a radix argument.  The result is the exact
    integer; the program's is that integer rounded to a double, the same
    number up to 2^53. *)
Definition parseInt (s : string) : number :=
  let s0 := trimStart s in
  let '(sign, s1) :=
    match s0 with
    | String "-" r => (-1, r)
    | String "+" r => (1, r)
    | _ => (1, s0)
    end in
  let '(R, s2) :=
    match s1 with
    | String "0" (String "x" r) => (16, r)
    | String "0" (String "X" r) => (16, r)
    | _ => (10, s1)
    end in
  match digits R s2 None with
  | Some v => Num (sign * v)
  | None => NaN
  end.

(** [parseInt(v)] for a value that may be [undefined]. *)
Definition parseIntValue (v : option string) : number :=
  match v with
  | Some s => parseInt s
  | None => parseInt "undefined"
  end.

(** [Number.prototype.toString] of an integer, in plain decimal; the
    program prints the same digits for an integer below 1e21 that is a
    double. *)
Definition toString (z : Z) : string :=
  NilZero.string_of_int (Z.to_int z).

(** Truthiness of a string that may be [undefined]. *)
Definition truthy (v : option string) : bool :=
  match v with
  | Some s => negb (String.eqb s "")
  | None => false
  end.

(** [a === b] where each side is a string or [undefined]. *)
Definition strictEq (a b : option string) : bool :=
  match a, b with
  | Some x, Some y => String.eqb x y
  | None, None => true
  | _, _ => false
  end.

End JsString.

(* ================================================================== *)
(** ** JavaScript objects used as dictionaries *)

Module JsObject.

Definition object (V : Type) : Type := list (string * V).

Fixpoint get {V} (k : string) (o : object V) : option V :=
  match o with
  | [] => None
  | (k', v) :: o' => if String.eqb k k' then Some v else get k o'
  end.

(** [o[k] = v]: an existing key keeps its position. *)
Fixpoint set {V} (k : string) (v : V) (o : object V) : object V :=
  match o with
  | [] => [(k, v)]
  | (k', v') :: o' =>
      if String.eqb k k' then (k', v) :: o' else (k', v') :: set k v o'
  end.

(** [Object.keys(o)] *)
Definition keys {V} (o : object V) : list string := map fst o.

(** [Object.fromEntries]: each entry is an array whose first two
    elements are the key and the value. *)
Definition entry (a : list string) : string * option string :=
  match a with
  | [] => ("undefined", None)
  | [k] => (k, None)
  | k :: v :: _ => (k, Some v)
  end.

Definition fromEntries (l : list (list string)) : object (option string) :=
  fold_left (fun o a => set (fst (entry a)) (snd (entry a)) o) l [].

(** [o[k]] where a missing key reads as [undefined]. *)
Definition lookup (k : string) (o : object (option string)) : option string :=
  match get k o with
  | Some v => v
  | None => None
  end.

End JsObject.

Import JsString JsObject.

(* ================================================================== *)
(** ** The collaborators of the Lambda handler: object store and codec *)

Module Runtime.

Definition bytes : Type := list Byte.byte.

(** [Buffer.byteLength] *)
Definition byteLength (b : bytes) : Z := Z.of_nat (List.length b).

(** What [getObject] resolves to. *)
Record s3_object : Type := {
  Body : bytes;
  ContentType : option string
}.

(** The parameters of [putObject]. *)
Record put_request : Type := {
  put_Body : bytes;
  put_Bucket : option string;
  put_Key : string;
  put_ContentType : option string;
  put_cache_control : option string
}.

(** What [sharp.metadata()] resolves to, as far as the handler reads it. *)
Record imageMetadata : Type := {
  width : Z;
  height : Z;
  orientation : option Z
}.

(** The [resizingOptions] object handed to [sharp.resize]. *)
Record resizingOptions : Type := {
  resize_width : option number;
  resize_height : option number;
  resize_fit : option string
}.

(** The codec operations queued on a [Sharp] instance; [toFormat]
    carries the [quality] option when one is given. *)
Inductive sharp_op : Type :=
| resize (options : resizingOptions)
| rotate
| toFormat (format : string) (quality : option number).

(** The calls that leave the handler. *)
Inductive call : Type :=
| GetObject (bucket : option string) (key : string)
| Metadata (input : bytes)
| ToBuffer (input : bytes) (pipeline : list sharp_op)
| PutObject (request : put_request).

(** The answers of the outside world; [None] and [false] stand for a
    rejected promise. *)
Record World : Type := {
  s3_getObject : option string -> string -> option s3_object;
  sharp_metadata : bytes -> option imageMetadata;
  sharp_toBuffer : bytes -> list sharp_op -> option bytes;
  s3_putObject : put_request -> bool
}.

(** [process.env] as the handler reads it. *)
Record Env : Type := {
  originalImageBucketName : option string;
  transformedImageBucketName : option string;
  transformedImageCacheTTL : option string;
  autoTransformImageSizes : option string;
  autoTransformImageFormats : option string;
  allowTransformImageWidths : option string;
  allowTransformImageHeights : option string;
  secretKey : option string;
  maxImageSize : option string
}.

(** The Lambda response object. *)
Inductive payload : Type :=
| text (s : string)
| base64 (b : bytes).

Record response : Type := {
  statusCode : Z;
  body : option payload;
  isBase64Encoded : bool;
  headers : list (string * option string)
}.

(** The Lambda event: an S3 notification carries [Records], a function
    URL request carries [headers] and [requestContext]. *)
Record s3_record : Type := {
  eventName : string;
  s3_object_key : string
}.

Record http_context : Type := {
  method : string;
  path : string
}.

Record event : Type := {
  ev_Records : option (list s3_record);
  ev_headers : option (object string);
  ev_requestContext : option (option http_context)
}.

(** Computations that call the outside world: the trace of calls is
    threaded through and an exception ends the computation. *)
Inductive result (A : Type) : Type :=
| Ok (a : A)
| Throw.
Arguments Ok {A} a.
Arguments Throw {A}.

Definition M (A : Type) : Type := list call -> result A * list call.

Definition ret {A} (a : A) : M A := fun t => (Ok a, t).

Definition bind {A B} (m : M A) (k : A -> M B) : M B :=
  fun t => match m t with
           | (Ok a, t') => k a t'
           | (Throw, t') => (Throw, t')
           end.

Definition throw {A} : M A := fun t => (Throw, t).

(** [try { m } catch (error) { }]: [None] when [m] threw. *)
Definition try {A} (m : M A) : M (option A) :=
  fun t => match m t with
           | (Ok a, t') => (Ok (Some a), t')
           | (Throw, t') => (Ok None, t')
           end.

Definition perform {A} (c : call) (answer : option A) : M A :=
  fun t => match answer with
           | Some a => (Ok a, (t ++ [c])%list)
           | None => (Throw, (t ++ [c])%list)
           end.

(** [for (const x of l) { await f(x) }] *)
Fixpoint forEach {A} (l : list A) (f : A -> M unit) : M unit :=
  match l with
  | [] => ret tt
  | x :: l' => bind (f x) (fun _ => forEach l' f)
  end.

Definition run {A} (m : M A) : result A * list call := m [].

Section Calls.
Variable W : World.

Definition getObject (bucket : option string) (key : string) : M s3_object :=
  perform (GetObject bucket key) (s3_getObject W bucket key).

Definition metadata (input : bytes) : M imageMetadata :=
  perform (Metadata input) (sharp_metadata W input).

Definition toBuffer (input : bytes) (pipeline : list sharp_op) : M bytes :=
  perform (ToBuffer input pipeline) (sharp_toBuffer W input pipeline).

Definition putObject (request : put_request) : M unit :=
  perform (PutObject request)
          (if s3_putObject W request then Some tt else None).
End Calls.

End Runtime.

Import Runtime.

Declare Scope js_scope.
Delimit Scope js_scope with js.
Notation "x <- m ;; k" := (bind m (fun x => k))
  (at level 61, m at next level, right associativity) : js_scope.
Notation "m ;;; k" := (bind m (fun _ => k))
  (at level 61, right associativity) : js_scope.
Open Scope js_scope.

(* ================================================================== *)
(** ** [functions/image-processing/index.js], lines 349-573 *)

Module ImageProcessing.

Definition SUPPORTED_EXTENSIONS : list string :=
  [".jpg"; ".jpeg"; ".webp"; ".avif"; ".png"].

Definition TRANSFORMED_FOLDER_PREFIX : string := "transformed".

(** [sendError]: the two [console.log] calls are not recorded. *)
Definition sendError (statusCode : Z) (body : string) : response :=
  {| statusCode := statusCode;
     body := Some (text body);
     isBase64Encoded := false;
     headers := [] |}.

(** [Object.fromEntries(operationsPrefix.split(',').map(operation =>
    operation.split('=')))] *)
Definition operationsJSON (operationsPrefix : string) : object (option string) :=
  fromEntries (map (split "=") (split "," operationsPrefix)).

(** [n || d] for a number [n] and an integer [d]. *)
Definition orElse (n : number) (d : Z) : Z :=
  match n with
  | Num z => if z =? 0 then d else z
  | NaN => d
  end.

(** Lines 456-479: the assignments to [resizingOptions]. *)
Definition resizing (meta : imageMetadata) (ops : object (option string))
  : resizingOptions :=
  let imageTransformWidth := parseIntValue (lookup "w" ops) in
  let imageTransformHeight := parseIntValue (lookup "h" ops) in
  let imageTransformMaxWidth := parseIntValue (lookup "mw" ops) in
  let imageTransformMaxHeight := parseIntValue (lookup "mh" ops) in
  let o0 := {| resize_width := None; resize_height := None; resize_fit := None |} in
  let o1 :=
    if truthy (lookup "w" ops)
    then {| resize_width := Some (Num (Z.min (orElse imageTransformWidth (width meta)) (width meta)));
            resize_height := resize_height o0;
            resize_fit := resize_fit o0 |}
    else o0 in
  let o2 :=
    if truthy (lookup "h" ops)
    then {| resize_width := resize_width o1;
            resize_height := Some (Num (Z.min (orElse imageTransformHeight (height meta)) (height meta)));
            resize_fit := resize_fit o1 |}
    else o1 in
  let o3 :=
    if truthy (lookup "mw" ops)
    then {| resize_width := Some (Num (Z.min (orElse imageTransformMaxWidth (width meta)) (width meta)));
            resize_height := resize_height o2;
            resize_fit := Some "inside" |}
    else o2 in
  if truthy (lookup "mh" ops)
  then {| resize_width := resize_width o3;
          resize_height := Some (Num (Z.min (orElse imageTransformMaxHeight (height meta)) (height meta)));
          resize_fit := Some "inside" |}
  else o3.

(** Lines 486-516: the content type and the [toFormat] call, if any. *)
Definition formatting (ops : object (option string)) (contentType : option string)
  : list sharp_op * option string :=
  match lookup "f" ops with
  | Some f =>
      if negb (String.eqb f "") && negb (String.eqb f "org") then
        let '(contentType', isLossy) :=
          if String.eqb f "jpeg" then ("image/jpeg", true)
          else if String.eqb f "gif" then ("image/gif", false)
          else if String.eqb f "webp" then ("image/webp", true)
          else if String.eqb f "png" then ("image/png", false)
          else if String.eqb f "avif" then ("image/avif", true)
          else ("image/jpeg", true) in
        if truthy (lookup "quality" ops) && isLossy
        then ([toFormat f (Some (parseIntValue (lookup "quality" ops)))],
              Some contentType')
        else ([toFormat f None], Some contentType')
      else ([], contentType)
  | None => ([], contentType)
  end.

(** Line 523: [Buffer.byteLength(transformedImage) > MAX_IMAGE_SIZE]. *)
Definition exceeds (len : Z) (limit : number) : bool :=
  match limit with
  | Num m => m <? len
  | NaN => false
  end.

(** Line 527-529. *)
Definition shortenOperationsPrefix (operationsPrefix : string) : string :=
  let s := replace ",f=org" ""
             (replace "org," "" (replace "org,f=org" "" operationsPrefix)) in
  if String.eqb s "" then "original" else s.

(** Line 533: the key under which the derived image is stored. *)
Definition derivedKey (originalImagePath operationsPrefix : string) : string :=
  replace "/static-assets/"
          ("/" ++ TRANSFORMED_FOLDER_PREFIX ++ "/static-assets/")
          originalImagePath
    ++ "/" ++ shortenOperationsPrefix operationsPrefix.

Section Handler.
Variable W : World.
Variable env : Env.

Definition S3_ORIGINAL_IMAGE_BUCKET := originalImageBucketName env.
Definition S3_TRANSFORMED_IMAGE_BUCKET := transformedImageBucketName env.
Definition TRANSFORMED_IMAGE_CACHE_TTL := transformedImageCacheTTL env.
Definition AUTO_TRANSFORM_IMAGE_SIZES := autoTransformImageSizes env.
Definition AUTO_TRANSFORM_IMAGE_FORMATS := autoTransformImageFormats env.
Definition ALLOW_TRANSFORM_IMAGE_WIDTHS := allowTransformImageWidths env.
Definition ALLOW_TRANSFORM_IMAGE_HEIGHTS := allowTransformImageHeights env.
Definition SECRET_KEY := secretKey env.
Definition MAX_IMAGE_SIZE : number := parseIntValue (maxImageSize env).

(** Lines 454-517, the body of the [try] block.  When both allow lists
    are configured, line 466 reads [indexOf] on the undefined property
    [allowTransformImageWidths.allowTransformImageWidths] (or line 464
    calls [split] on [undefined]) and throws, so the [return] of line
    467 is never reached. *)
Definition transformBlock (originalImage : s3_object) (meta : imageMetadata)
           (ops : object (option string))
  : M (bytes * option string) :=
  resized <-
    (if negb (truthy (lookup "org" ops)) then
       if negb (strictEq ALLOW_TRANSFORM_IMAGE_WIDTHS (Some ""))
          && negb (strictEq ALLOW_TRANSFORM_IMAGE_HEIGHTS (Some ""))
       then throw
       else ret ([resize (resizing meta ops)]
                   ++ (if truthyNumber (match orientation meta with
                                        | Some z => Num z
                                        | None => NaN
                                        end)
                       then [rotate] else []))%list
     else ret []) ;;
  let '(formatted, contentType) := formatting ops (ContentType originalImage) in
  transformedImage <- toBuffer W (Body originalImage) (resized ++ formatted)%list ;;
  ret (transformedImage, contentType).

(** Lines 432-520: everything up to the transformed buffer; [inl] is
    the response of an early [return]. *)
Definition transformStage (originalImagePath operationsPrefix : string)
  : M (response + bytes * option string) :=
  fetched <- try (getObject W S3_ORIGINAL_IMAGE_BUCKET originalImagePath) ;;
  match fetched with
  | None => ret (inl (sendError 500 "Error downloading original image"))
  | Some originalImage =>
      meta <- metadata W (Body originalImage) ;;
      transformed <- try (transformBlock originalImage meta
                                         (operationsJSON operationsPrefix)) ;;
      match transformed with
      | None => ret (inl (sendError 500 "error transforming image"))
      | Some r => ret (inr r)
      end
  end.

Definition putDerived (originalImagePath operationsPrefix : string)
           (transformedImage : bytes) (contentType : option string)
  : put_request :=
  {| put_Body := transformedImage;
     put_Bucket := S3_TRANSFORMED_IMAGE_BUCKET;
     put_Key := derivedKey originalImagePath operationsPrefix;
     put_ContentType := contentType;
     put_cache_control := TRANSFORMED_IMAGE_CACHE_TTL |}.

(** Lines 522-563: the size check, the write to the store and the
    response.  The [catch] of line 548 only logs. *)
Definition respondStage (originalImagePath operationsPrefix : string)
           (transformedImage : bytes) (contentType : option string)
  : M response :=
  let imageTooBig := exceeds (byteLength transformedImage) MAX_IMAGE_SIZE in
  uploaded <-
    try (putObject W (putDerived originalImagePath operationsPrefix
                                 transformedImage contentType) ;;;
         ret imageTooBig) ;;
  match uploaded with
  | Some true =>
      ret {| statusCode := 302;
             body := None;
             isBase64Encoded := false;
             headers :=
               [("Location",
                 Some ("/" ++ originalImagePath ++ "?"
                           ++ replaceAll "," "&" operationsPrefix));
                ("Cache-Control", Some "private,no-store")] |}
  | _ =>
      if imageTooBig
      then ret (sendError 403 "Requested transformed image is too big")
      else ret {| statusCode := 200;
                  body := Some (base64 transformedImage);
                  isBase64Encoded := true;
                  headers :=
                    [("Content-Type", contentType);
                     ("Cache-Control", TRANSFORMED_IMAGE_CACHE_TTL)] |}
  end.

(** Lines 431-564. *)
Definition transformImage (originalImagePath operationsPrefix : string)
  : M response :=
  r <- transformStage originalImagePath operationsPrefix ;;
  match r with
  | inl early => ret early
  | inr (transformedImage, contentType) =>
      respondStage originalImagePath operationsPrefix
                   transformedImage contentType
  end.

(** [s.split('|')] on an environment variable; [undefined] throws. *)
Definition splitEnv (v : option string) : M (list string) :=
  match v with
  | Some s => ret (split "|" s)
  | None => throw
  end.

(** Line 384: the test that selects the ingestion branch. *)
Definition isObjectCreated (ev : event) : M bool :=
  match ev_Records ev with
  | None => ret false
  | Some [] => throw
  | Some (r :: _) => ret (includes (eventName r) "ObjectCreated")
  end.

(** Lines 416-423: the operations and the original path of a request
    path. *)
Definition requestedOperations (p : string) : string :=
  List.last (split "/" p) "".

Definition requestedImagePath (p : string) : string :=
  replace (TRANSFORMED_FOLDER_PREFIX ++ "/") ""
          (join "/" (List.tl (List.removelast (split "/" p)))).

(** Lines 379-428; [None] is the [undefined] of a path without
    [return]. *)
Definition handler (ev : event) : M (option response) :=
  ingestion <- isObjectCreated ev ;;
  if ingestion then
    let originalImagePath :=
      match ev_Records ev with
      | Some (r :: _) => s3_object_key r
      | _ => ""
      end in
    if negb (startsWith originalImagePath "sandbox/") then
      if existsb (endsWith originalImagePath) SUPPORTED_EXTENSIONS then
        autoTransformImageSizes <- splitEnv AUTO_TRANSFORM_IMAGE_SIZES ;;
        autoTransformImageFormats <- splitEnv AUTO_TRANSFORM_IMAGE_FORMATS ;;
        forEach autoTransformImageSizes (fun size =>
          forEach autoTransformImageFormats (fun format =>
            transformImage originalImagePath (size ++ ",f=" ++ format) ;;;
            ret tt)) ;;;
        ret None
      else ret None
    else ret None
  else
    match ev_headers ev with
    | None => throw
    | Some hs =>
        let secret := get "x-origin-secret-header" hs in
        if negb (truthy secret) || negb (strictEq secret SECRET_KEY)
        then ret (Some (sendError 403 "Request unauthorized"))
        else
          match ev_requestContext ev with
          | Some (Some http) =>
              if negb (String.eqb (method http) "GET")
              then ret (Some (sendError 400 "Only GET method is supported"))
              else
                r <- transformImage (requestedImagePath (path http))
                                    (requestedOperations (path http)) ;;
                ret (Some r)
          | _ => ret (Some (sendError 400 "Only GET method is supported"))
          end
    end.

End Handler.

End ImageProcessing.

(* ================================================================== *)
(** ** [functions/image-processing/index.js], lines 574-747: the variant
       written against the modular AWS SDK *)

Module ImageProcessingEsm.

Definition sendError := ImageProcessing.sendError.
Definition operationsJSON := ImageProcessing.operationsJSON.

(** Lines 657-673: the requested values are stored as parsed. *)
Definition resizing (ops : object (option string)) : resizingOptions :=
  let imageTransformWidth := parseIntValue (lookup "w" ops) in
  let imageTransformHeight := parseIntValue (lookup "h" ops) in
  {| resize_width :=
       if truthy (lookup "w" ops) then Some imageTransformWidth else None;
     resize_height :=
       if truthy (lookup "h" ops) then Some imageTransformHeight else None;
     resize_fit := None |}.

(** Line 708: no [original] placeholder here. *)
Definition derivedKey (originalImagePath operationsPrefix : string) : string :=
  originalImagePath ++ "/"
    ++ replace ",f=org" ""
         (replace "org," "" (replace "org,f=org" "" operationsPrefix)).

Section Handler.
Variable W : World.
Variable env : Env.

(** Lines 655-695; lines 679-694 are the text of lines 486-516. *)
Definition transformBlock (originalImage : s3_object) (meta : imageMetadata)
           (ops : object (option string))
  : M (bytes * option string) :=
  resized <-
    (if negb (truthy (lookup "org" ops)) then
       if negb (strictEq (allowTransformImageWidths env) (Some ""))
          && negb (strictEq (allowTransformImageHeights env) (Some ""))
       then throw
       else ret ([resize (resizing ops)]
                   ++ (if truthyNumber (match orientation meta with
                                        | Some z => Num z
                                        | None => NaN
                                        end)
                       then [rotate] else []))%list
     else ret []) ;;
  let '(formatted, contentType) :=
    ImageProcessing.formatting ops (ContentType originalImage) in
  transformedImage <- toBuffer W (Body originalImage) (resized ++ formatted)%list ;;
  ret (transformedImage, contentType).

(** Lines 635-741.  The object literal of the redirect reads the
    undeclared [timingLog] (line 721), which throws inside the [try];
    the [catch] of line 725 only logs. *)
Definition transformImage (originalImagePath operationsPrefix : string)
  : M response :=
  fetched <- try (getObject W (originalImageBucketName env) originalImagePath) ;;
  match fetched with
  | None => ret (sendError 500 "Error downloading original image")
  | Some originalImage =>
      meta <- metadata W (Body originalImage) ;;
      transformed <- try (transformBlock originalImage meta
                                         (operationsJSON operationsPrefix)) ;;
      match transformed with
      | None => ret (sendError 500 "error transforming image")
      | Some (transformedImage, contentType) =>
          let imageTooBig :=
            ImageProcessing.exceeds (byteLength transformedImage)
                                    (parseIntValue (maxImageSize env)) in
          try (putObject W
                 {| put_Body := transformedImage;
                    put_Bucket := transformedImageBucketName env;
                    put_Key := derivedKey originalImagePath operationsPrefix;
                    put_ContentType := contentType;
                    put_cache_control := transformedImageCacheTTL env |} ;;;
               if imageTooBig then throw else ret tt) ;;;
          if imageTooBig
          then ret (sendError 403 "Requested transformed image is too big")
          else ret {| statusCode := 200;
                      body := Some (base64 transformedImage);
                      isBase64Encoded := true;
                      headers :=
                        [("Content-Type", contentType);
                         ("Cache-Control", transformedImageCacheTTL env)] |}
      end
  end.

End Handler.

End ImageProcessingEsm.

(* ================================================================== *)
(** ** [functions/url-rewrite/index.js] *)

Module UrlRewrite.

(** The CloudFront request object: every query parameter, header and
    cookie is an object with a [value]. *)
Record request : Type := {
  uri : string;
  querystring : option (object string);
  headers : object string;
  cookies : object string
}.

Record event : Type := { event_request : request }.

Definition SUPPORTED_FORMATS : list string :=
  ["auto"; "jpg"; "jpeg"; "webp"; "avif"; "png"].
Definition SUPPORTED_EXTENSIONS : list string :=
  [".jpg"; ".jpeg"; ".webp"; ".avif"; ".png"].
Definition TRANSFORMED_FOLDER_PREFIX : string := "transformed".

(** [Array.prototype.includes] on an array of strings. *)
Definition arrayIncludes (l : list string) (s : string) : bool :=
  existsb (String.eqb s) l.

(** Lines 25-34: the format that replaces [auto]. *)
Definition autoFormat (req : request) : string :=
  match get "accept" (headers req) with
  | Some accept =>
      if includes accept "avif" then "avif"
      else if includes accept "webp" then "webp"
      else "jpeg"
  | None => "jpeg"
  end.

(** The test shared by the cases [w], [h], [mw], [mh] and [q]: a truthy
    value whose [parseInt] is a number above zero. *)
Definition positiveValue (value : string) : option Z :=
  if truthy (Some value) then
    match parseInt value with
    | Num n => if 0 <? n then Some n else None
    | NaN => None
    end
  else None.

(** Lines 21-84: the body of the [forEach], one query parameter. *)
Definition operation (req : request) (normalizedOperations : object string)
           (parameter : string * string) : object string :=
  let '(name, value) := parameter in
  let key := toLowerCase name in
  if String.eqb key "f" then
    if truthy (Some value) && arrayIncludes SUPPORTED_FORMATS (toLowerCase value)
    then
      let format := toLowerCase value in
      let format := if String.eqb format "auto" then autoFormat req else format in
      set "f" format normalizedOperations
    else normalizedOperations
  else if String.eqb key "w" then
    match positiveValue value with
    | Some width => set "w" (toString width) normalizedOperations
    | None => normalizedOperations
    end
  else if String.eqb key "h" then
    match positiveValue value with
    | Some height => set "h" (toString height) normalizedOperations
    | None => normalizedOperations
    end
  else if String.eqb key "mw" then
    match positiveValue value with
    | Some maxWidth => set "mw" (toString maxWidth) normalizedOperations
    | None => normalizedOperations
    end
  else if String.eqb key "mh" then
    match positiveValue value with
    | Some maxHeight => set "mh" (toString maxHeight) normalizedOperations
    | None => normalizedOperations
    end
  else if String.eqb key "q" then
    match positiveValue value with
    | Some quality =>
        set "q" (toString (if 100 <? quality then 100 else quality))
            normalizedOperations
    | None => normalizedOperations
    end
  else normalizedOperations.

(** Lines 18-85: [normalizedOperations] after the loop over
    [Object.keys(request.querystring)].  [Object.keys] lists integer-like
    names first; such a name is no operation, so the parameters that
    count are visited in the order in which the object holds them. *)
Definition normalizedOperations (req : request) (qs : object string)
  : object string :=
  fold_left (operation req) qs [].

(** [if (normalizedOperations.k) normalizedOperationsArray.push(k + '=' + normalizedOperations.k)] *)
Definition pushed (k : string) (ops : object string) : list string :=
  match get k ops with
  | Some v => if truthy (Some v) then [k ++ "=" ++ v] else []
  | None => []
  end.

(** Lines 89-95. *)
Definition normalizedOperationsArray (ops : object string) : list string :=
  (pushed "f" ops ++ pushed "q" ops ++ pushed "w" ops ++ pushed "h" ops
     ++ pushed "mw" ops ++ pushed "mh" ops)%list.

(** Lines 19-105: the segment appended to the path after the slash. *)
Definition operationSegment (req : request) : string :=
  match querystring req with
  | Some qs =>
      let ops := normalizedOperations req qs in
      if (0 <? List.length (keys ops))%nat
      then join "," (normalizedOperationsArray ops)
      else "original"
  | None => "original"
  end.

Definition isTransformSupported (originalImagePath : string) : bool :=
  existsb (endsWith originalImagePath) SUPPORTED_EXTENSIONS.

(** Lines 4-114.  Line 110 reads [request.cookies.crafterSite.value]
    and throws when the request has no such cookie. *)
Definition handler (ev : event) : result request :=
  let req := event_request ev in
  let originalImagePath := uri req in
  let rewritten :=
    if isTransformSupported originalImagePath then
      {| uri := "/" ++ TRANSFORMED_FOLDER_PREFIX
                    ++ (originalImagePath ++ "/" ++ operationSegment req);
         querystring := Some [];
         headers := headers req;
         cookies := cookies req |}
    else req in
  match get "crafterSite" (cookies rewritten) with
  | None => Throw
  | Some site =>
      if truthy (Some site)
      then Ok {| uri := "/" ++ site ++ uri rewritten;
                 querystring := querystring rewritten;
                 headers := headers rewritten;
                 cookies := cookies rewritten |}
      else Ok rewritten
  end.

End UrlRewrite.

(* ================================================================== *)
(** ** [functions/image-processing/index.js], lines 747-826: the older
       URL rewriter kept next to the handler *)

Module UrlRewriteLegacy.

Definition SUPPORTED_FORMATS : list string :=
  ["auto"; "jpeg"; "webp"; "avif"; "png"; "svg"; "gif"].

(** Lines 756-804: the parameters are stored under [format], [w], [h]
    and [q]. *)
Definition operation (req : UrlRewrite.request)
           (normalizedOperations : object string)
           (parameter : string * string) : object string :=
  let '(name, value) := parameter in
  let key := toLowerCase name in
  if String.eqb key "f" then
    if truthy (Some value) && UrlRewrite.arrayIncludes SUPPORTED_FORMATS (toLowerCase value)
    then
      let format := toLowerCase value in
      let format :=
        if String.eqb format "auto" then UrlRewrite.autoFormat req else format in
      set "format" format normalizedOperations
    else normalizedOperations
  else if String.eqb key "w" then
    match UrlRewrite.positiveValue value with
    | Some width => set "w" (toString width) normalizedOperations
    | None => normalizedOperations
    end
  else if String.eqb key "h" then
    match UrlRewrite.positiveValue value with
    | Some height => set "h" (toString height) normalizedOperations
    | None => normalizedOperations
    end
  else if String.eqb key "q" then
    match UrlRewrite.positiveValue value with
    | Some quality =>
        set "q" (toString (if 100 <? quality then 100 else quality))
            normalizedOperations
    | None => normalizedOperations
    end
  else normalizedOperations.

(** [if (normalizedOperations.field) push(k + '=' + normalizedOperations.field)] *)
Definition pushed (k field : string) (ops : object string) : list string :=
  match get field ops with
  | Some v => if truthy (Some v) then [k ++ "=" ++ v] else []
  | None => []
  end.

(** Lines 808-812: the fields read here are [format], [quality],
    [width] and [height]. *)
Definition normalizedOperationsArray (ops : object string) : list string :=
  (pushed "f" "format" ops ++ pushed "q" "quality" ops
     ++ pushed "w" "width" ops ++ pushed "h" "height" ops)%list.

(** Lines 750-826. *)
Definition handler (ev : UrlRewrite.event) : UrlRewrite.request :=
  let req := UrlRewrite.event_request ev in
  let originalImagePath := UrlRewrite.uri req in
  {| UrlRewrite.uri :=
       match UrlRewrite.querystring req with
       | Some qs =>
           let ops := fold_left (operation req) qs [] in
           if (0 <? List.length (keys ops))%nat
           then originalImagePath ++ "/" ++ join "," (normalizedOperationsArray ops)
           else originalImagePath ++ "/"
       | None => originalImagePath ++ "/"
       end;
     UrlRewrite.querystring := Some [];
     UrlRewrite.headers := UrlRewrite.headers req;
     UrlRewrite.cookies := UrlRewrite.cookies req |}.

End UrlRewriteLegacy.

(* ================================================================== *)
(** ** The notions in which the properties are stated *)

Module Stated.

(** A request takes the on-the-fly branch of line 410 when the test of
    line 384 evaluates to false. *)
Definition directRequest (ev : event) : Prop :=
  match ev_Records ev with
  | None => True
  | Some (r :: _) => includes (eventName r) "ObjectCreated" = false
  | Some [] => False
  end.

(** The codec operations queued for a request that resizes: the resize
    of line 480, the rotation of line 482 when the original carries an
    orientation, and the re-encoding of lines 486-516. *)
Definition requestedPipeline (meta : imageMetadata)
           (ops : object (option string)) (contentType : option string)
  : list sharp_op :=
  (resize (ImageProcessing.resizing meta ops)
     :: (match orientation meta with
         | Some z => if z =? 0 then [] else [rotate]
         | None => []
         end)
     ++ fst (ImageProcessing.formatting ops contentType))%list.

(** The lossless target formats. *)
Definition lossless (f : string) : bool :=
  String.eqb f "gif" || String.eqb f "png".

(** Stripping a token from a string: its first occurrence is cut out. *)
Definition strip (token s : string) : string :=
  match indexOf token s with
  | Some n => take n s ++ drop (n + String.length token) s
  | None => s
  end.

(** The operations prefix as it is persisted: the three no-op tokens
    stripped in turn, and [original] in place of an empty result. *)
Definition persistedOperations (operationsPrefix : string) : string :=
  let s := strip ",f=org" (strip "org," (strip "org,f=org" operationsPrefix)) in
  if String.eqb s "" then "original" else s.

(** The original path as it is persisted: its first [/static-assets/]
    moved under the folder of transformed images. *)
Definition persistedPath (originalImagePath : string) : string :=
  match indexOf "/static-assets/" originalImagePath with
  | Some n =>
      take n originalImagePath ++ "/transformed/static-assets/"
        ++ drop (n + 15) originalImagePath
  | None => originalImagePath
  end.

(** A query parameter with its name in lower case. *)
Definition lowerKey (parameter : string * string) : string :=
  toLowerCase (fst parameter).

Definition lowered (parameter : string * string) : string * string :=
  (toLowerCase (fst parameter), snd parameter).

(** The fixed order of the canonical operation string. *)
Definition CANONICAL_ORDER : list string := ["f"; "q"; "w"; "h"; "mw"; "mh"].

(** The canonical fields of an object of operations: the keys of
    [CANONICAL_ORDER] that hold a non-empty value, in that order, each
    rendered as [key=value]. *)
Definition canonicalFields (ops : object string) : list string :=
  map (fun k => k ++ "=" ++ match get k ops with Some v => v | None => "" end)
      (filter (fun k => truthy (get k ops)) CANONICAL_ORDER).

(** A parameter is a valid operation when its name is [f] with a
    supported format, or one of [w], [h], [mw], [mh], [q] with a value
    that parses to a number above zero. *)
Definition validOperation (key value : string) : bool :=
  if String.eqb key "f"
  then truthy (Some value)
       && UrlRewrite.arrayIncludes UrlRewrite.SUPPORTED_FORMATS (toLowerCase value)
  else if String.eqb key "w" || String.eqb key "h" || String.eqb key "mw"
          || String.eqb key "mh" || String.eqb key "q"
       then match UrlRewrite.positiveValue value with
            | Some _ => true
            | None => false
            end
       else false.

Definition validParameter (parameter : string * string) : bool :=
  validOperation (lowerKey parameter) (snd parameter).

(** A parameter can decide the field [k] when it is valid and its
    lower-case name is [k]; the last such parameter does. *)
Definition decides (k : string) (parameter : string * string) : bool :=
  validParameter parameter && String.eqb (lowerKey parameter) k.

(** No valid operation survives: there is no query string, or none of
    its parameters is valid. *)
Definition noValidOperation (req : UrlRewrite.request) : Prop :=
  match UrlRewrite.querystring req with
  | Some qs => forall parameter, In parameter qs -> validParameter parameter = false
  | None => True
  end.

(** Whether the [Accept] header, if any, advertises a format. *)
Definition advertises (accept : option string) (format : string) : bool :=
  match accept with
  | Some a => includes a format
  | None => false
  end.

(** The format chosen for [f=auto]: avif if advertised, else webp if
    advertised, else jpeg. *)
Definition negotiated (accept : option string) : string :=
  if advertises accept "avif" then "avif"
  else if advertises accept "webp" then "webp"
  else "jpeg".

(** The value recorded for a valid parameter: the format in lower case
    with [auto] resolved, or the number in decimal, a quality capped at
    100. *)
Definition storedOperation (accept : option string) (key value : string) : string :=
  if String.eqb key "f"
  then if String.eqb (toLowerCase value) "auto"
       then negotiated accept
       else toLowerCase value
  else match UrlRewrite.positiveValue value with
       | Some n => toString (if String.eqb key "q" && (100 <? n) then 100 else n)
       | None => ""
       end.

Definition storedValue (req : UrlRewrite.request) (parameter : string * string)
  : string :=
  storedOperation (get "accept" (UrlRewrite.headers req))
                  (lowerKey parameter) (snd parameter).

(** The site folder put in front of the URI by line 111. *)
Definition sitePrefix (site : string) : string :=
  if String.eqb site "" then "" else "/" ++ site.

(** The URI of the request the edge function returns. *)
Definition rewrittenUri (ev : UrlRewrite.event) : result string :=
  match UrlRewrite.handler ev with
  | Ok r => Ok (UrlRewrite.uri r)
  | Throw => Throw
  end.

End Stated.

Import Stated.

(* ================================================================== *)
(** ** A sample world, used to run the handlers on concrete requests *)

Module Sample.

Definition original : bytes := [Byte.xff; Byte.xd8; Byte.xff].
Definition derived : bytes := [Byte.x52; Byte.x49].

(** An 800x600 original without orientation tag under every key; the
    codec answers two bytes; the store accepts or refuses every write. *)
Definition world (storeAccepts : bool) : World :=
  {| s3_getObject := fun _ _ =>
       Some {| Body := original; ContentType := Some "image/jpeg" |};
     sharp_metadata := fun _ =>
       Some {| width := 800; height := 600; orientation := None |};
     sharp_toBuffer := fun _ _ => Some derived;
     s3_putObject := fun _ => storeAccepts |}.

(** The environment the stack provisions, with a chosen size ceiling. *)
Definition env (ceiling : string) : Env :=
  {| originalImageBucketName := Some "images-s3-original";
     transformedImageBucketName := Some "images-s3-transformed";
     transformedImageCacheTTL := Some "max-age=31622400";
     autoTransformImageSizes := Some "org";
     autoTransformImageFormats := Some "org";
     allowTransformImageWidths := Some "";
     allowTransformImageHeights := Some "";
     secretKey := Some "0123456789abcdef";
     maxImageSize := Some ceiling |}.

(** A function URL request. *)
Definition direct (secret : option string) (p : string) : event :=
  {| ev_Records := None;
     ev_headers := Some (match secret with
                         | Some s => [("x-origin-secret-header", s)]
                         | None => []
                         end);
     ev_requestContext := Some (Some {| method := "GET"; path := p |}) |}.

(** A viewer request seen by the edge function. *)
Definition viewer (u : string) (qs : object string) : UrlRewrite.event :=
  {| UrlRewrite.event_request :=
       {| UrlRewrite.uri := u;
          UrlRewrite.querystring := Some qs;
          UrlRewrite.headers := [("accept", "image/avif,image/webp,*/*")];
          UrlRewrite.cookies := [("crafterSite", "site")] |} |}.

End Sample.

(* ================================================================== *)
(** ** [functions/image-processing/index.js], lines 59-172 and 238-338:
       [transformImage] of the two instrumented variants *)

Module ImageProcessingInstrumented.

(** [sendError] of lines 174-177 and 340-343. *)
Definition sendError := ImageProcessing.sendError.

Section Handler.
Variable W : World.
Variable env : Env.

(** Lines 59-172 (and 238-338, the same text without the [console.log]
    calls).  After the download, line 74 (line 251) reads
    [event.requestContext], but [event] is the parameter of the handler
    and is not in scope in this function: the read throws, outside any
    [try], so nothing below it is reached. *)
Definition transformImage (originalImagePath operationsPrefix : string)
  : M response :=
  fetched <- try (getObject W (originalImageBucketName env) originalImagePath) ;;
  match fetched with
  | None => ret (sendError 500 "error downloading original image")
  | Some originalImage => throw
  end.

End Handler.

End ImageProcessingInstrumented.

(* ================================================================== *)
(** ** Further notions used in the statements *)

Module Notions.

(** A string without the character [c]. *)
Fixpoint noChar (c : ascii) (s : string) : bool :=
  match s with
  | EmptyString => true
  | String a s' => negb (Ascii.eqb a c) && noChar c s'
  end.

Definition isDecimalDigit (c : ascii) : bool :=
  (48 <=? code c) && (code c <=? 57).

(** [Number.MAX_SAFE_INTEGER], 2^53 - 1.  Up to it every integer is a
    double: the program's [parseInt] returns it exactly and its
    [toString] prints it in plain decimal, as [JsString.parseInt] and
    [JsString.toString] do. *)
Definition MAX_SAFE_INTEGER : Z := 9007199254740991.

(** A query string whose parameters, read by [parseInt], are at most
    [MAX_SAFE_INTEGER]. *)
Definition safeQuery (qs : object string) : bool :=
  forallb (fun parameter : string * string =>
             match parseInt (snd parameter) with
             | Num n => n <=? MAX_SAFE_INTEGER
             | NaN => true
             end) qs.

(** The operations the ingestion branch runs through, in order: every
    size with every format. *)
Definition precomputed (sizes formats : list string) : list string :=
  flat_map (fun size => map (fun format => size ++ ",f=" ++ format) formats)
           sizes.

(** The formats the rewriter of lines 750-826 can emit: its supported
    formats, [auto] resolved. *)
Definition legacyFormats : list string :=
  ["jpeg"; "webp"; "avif"; "png"; "svg"; "gif"].

(** A computation that only appends to the trace it is given. *)
Definition framed {A} (m : M A) : Prop :=
  forall t, m t = (fst (m []), (t ++ snd (m []))%list).

(** The four calls of a complete run of [transformImage]. *)
Definition fullTrace (env : Env) (originalImagePath operationsPrefix : string)
           (original : s3_object) (pipeline : list sharp_op)
           (transformedImage : bytes) (contentType : option string)
  : list call :=
  [GetObject (ImageProcessing.S3_ORIGINAL_IMAGE_BUCKET env) originalImagePath;
   Metadata (Body original);
   ToBuffer (Body original) pipeline;
   PutObject (ImageProcessing.putDerived env originalImagePath operationsPrefix
                                         transformedImage contentType)].

End Notions.

Import Notions.

(* ================================================================== *)
(** ** Further sample worlds and events *)

Module Scenario.

(** A store without the original. *)
Definition noOriginal : World :=
  {| s3_getObject := fun _ _ => None;
     sharp_metadata := sharp_metadata (Sample.world true);
     sharp_toBuffer := sharp_toBuffer (Sample.world true);
     s3_putObject := s3_putObject (Sample.world true) |}.

(** An original the codec cannot read. *)
Definition unreadable : World :=
  {| s3_getObject := s3_getObject (Sample.world true);
     sharp_metadata := fun _ => None;
     sharp_toBuffer := fun _ _ => None;
     s3_putObject := s3_putObject (Sample.world true) |}.

(** A codec that reads the metadata but fails to produce an image. *)
Definition codecFails : World :=
  {| s3_getObject := s3_getObject (Sample.world true);
     sharp_metadata := sharp_metadata (Sample.world true);
     sharp_toBuffer := fun _ _ => None;
     s3_putObject := s3_putObject (Sample.world true) |}.

(** The provisioned environment with other lists. *)
Definition envWith (sizes formats widths heights : string) : Env :=
  {| originalImageBucketName := Some "images-s3-original";
     transformedImageBucketName := Some "images-s3-transformed";
     transformedImageCacheTTL := Some "max-age=31622400";
     autoTransformImageSizes := Some sizes;
     autoTransformImageFormats := Some formats;
     allowTransformImageWidths := Some widths;
     allowTransformImageHeights := Some heights;
     secretKey := Some "0123456789abcdef";
     maxImageSize := Some "4700000" |}.

(** A function URL request with a method. *)
Definition request (httpMethod p : string) : event :=
  {| ev_Records := None;
     ev_headers := Some [("x-origin-secret-header", "0123456789abcdef")];
     ev_requestContext := Some (Some {| method := httpMethod; path := p |}) |}.

(** The notification of a created object. *)
Definition created (key : string) : event :=
  {| ev_Records := Some [{| eventName := "ObjectCreated:Put";
                            s3_object_key := key |}];
     ev_headers := None;
     ev_requestContext := None |}.

End Scenario.

(* ================================================================== *)
(** ** Facts about strings *)

Section StringFacts.

Lemma strictEq_true (a b : option string) : strictEq a b = true <-> a = b.
Proof.
  destruct a as [x|], b as [y|]; simpl; split; intro H;
    try discriminate; try reflexivity.
  - apply String.eqb_eq in H. now subst.
  - inversion H. apply String.eqb_refl.
Qed.

Lemma strictEq_false (a b : option string) : strictEq a b = false <-> a <> b.
Proof.
  split.
  - intros H E. apply strictEq_true in E. congruence.
  - intro H. destruct (strictEq a b) eqn:E; [|reflexivity].
    apply strictEq_true in E. contradiction.
Qed.

Lemma take_drop (n : nat) (s : string) : take n s ++ drop n s = s.
Proof.
  revert s. induction n as [|n IH]; intros [|c s]; simpl; try reflexivity.
  now rewrite IH.
Qed.

Lemma drop_drop (n m : nat) (s : string) : drop n (drop m s) = drop (m + n) s.
Proof.
  revert s. induction m as [|m IH]; intros s; simpl; [reflexivity|].
  destruct s as [|c s]; [now destruct n|]. apply IH.
Qed.

Lemma indexOf_unfold (pat s : string) :
  indexOf pat s =
  if String.prefix pat s then Some O
  else match s with
       | EmptyString => None
       | String _ s' => option_map S (indexOf pat s')
       end.
Proof. destruct s; reflexivity. Qed.

Lemma replace_unfold (pat rep s : string) :
  replace pat rep s =
  if String.prefix pat s then rep ++ drop (String.length pat) s
  else match s with
       | EmptyString => EmptyString
       | String c s' => String c (replace pat rep s')
       end.
Proof. destruct s; reflexivity. Qed.

(** [replace] leaves a string without occurrence unchanged... *)
Lemma replace_not_found (pat rep s : string) :
  indexOf pat s = None -> replace pat rep s = s.
Proof.
  induction s as [|c s IH]; rewrite indexOf_unfold, replace_unfold.
  - destruct (String.prefix pat ""); [discriminate|reflexivity].
  - destruct (String.prefix pat (String c s)); [discriminate|].
    destruct (indexOf pat s); [discriminate|].
    intros _. now rewrite IH.
Qed.

(** ... and otherwise substitutes the first occurrence. *)
Lemma replace_found (pat rep s : string) (n : nat) :
  indexOf pat s = Some n ->
  replace pat rep s = take n s ++ rep ++ drop (n + String.length pat) s.
Proof.
  revert n. induction s as [|c s IH]; intros n;
    rewrite indexOf_unfold, replace_unfold.
  - destruct (String.prefix pat ""); [|discriminate].
    intros [= <-]. reflexivity.
  - destruct (String.prefix pat (String c s)) eqn:E.
    + intros [= <-]. reflexivity.
    + destruct (indexOf pat s) as [m|]; [|discriminate].
      intros [= <-]. simpl. now rewrite (IH m eq_refl).
Qed.

End StringFacts.

(* ================================================================== *)
(** ** The image-processing handler *)

Section ImageProcessingFacts.

Import ImageProcessing.
Variable W : World.
Variable env : Env.

Lemma exceeds_true (len n : Z) : n < len -> exceeds len (Num n) = true.
Proof. intro H. simpl. now apply Z.ltb_lt. Qed.

Lemma exceeds_false (len n : Z) : len <= n -> exceeds len (Num n) = false.
Proof. intro H. simpl. apply Z.ltb_ge. lia. Qed.

(** Once the transform stage has produced a buffer, [transformImage]
    continues with the respond stage on the same trace. *)
Lemma transformImage_transformed p ops img ct t :
  run (transformStage W env p ops) = (Ok (inr (img, ct)), t) ->
  run (transformImage W env p ops) = respondStage W env p ops img ct t.
Proof.
  unfold run, transformImage, bind. intros ->. reflexivity.
Qed.

(** The respond stage issues exactly one call, the write of the derived
    image. *)
Lemma respondStage_run p ops img ct t :
  respondStage W env p ops img ct t =
  (Ok (if s3_putObject W (putDerived env p ops img ct)
          && exceeds (byteLength img) (MAX_IMAGE_SIZE env)
       then {| statusCode := 302;
               body := None;
               isBase64Encoded := false;
               headers :=
                 [("Location",
                   Some ("/" ++ p ++ "?" ++ replaceAll "," "&" ops));
                  ("Cache-Control", Some "private,no-store")] |}
       else if exceeds (byteLength img) (MAX_IMAGE_SIZE env)
            then sendError 403 "Requested transformed image is too big"
            else {| statusCode := 200;
                    body := Some (base64 img);
                    isBase64Encoded := true;
                    headers :=
                      [("Content-Type", ct);
                       ("Cache-Control", TRANSFORMED_IMAGE_CACHE_TTL env)] |}),
   (t ++ [PutObject (putDerived env p ops img ct)])%list).
Proof.
  unfold respondStage, bind, try, putObject, perform, ret.
  destruct (s3_putObject W (putDerived env p ops img ct));
    destruct (exceeds (byteLength img) (MAX_IMAGE_SIZE env)); reflexivity.
Qed.

(** The transform stage yields the buffer of the codec when the original
    and its metadata are available, the operations have no truthy [org],
    one of the allow lists is the empty string and the codec answers. *)
Lemma transformStage_succeeds p ops obj meta img :
  s3_getObject W (S3_ORIGINAL_IMAGE_BUCKET env) p = Some obj ->
  sharp_metadata W (Body obj) = Some meta ->
  truthy (lookup "org" (operationsJSON ops)) = false ->
  ALLOW_TRANSFORM_IMAGE_WIDTHS env = Some ""
  \/ ALLOW_TRANSFORM_IMAGE_HEIGHTS env = Some "" ->
  sharp_toBuffer W (Body obj)
                 (requestedPipeline meta (operationsJSON ops) (ContentType obj))
  = Some img ->
  run (transformStage W env p ops)
  = (Ok (inr (img, snd (formatting (operationsJSON ops) (ContentType obj)))),
     [GetObject (S3_ORIGINAL_IMAGE_BUCKET env) p;
      Metadata (Body obj);
      ToBuffer (Body obj)
               (requestedPipeline meta (operationsJSON ops) (ContentType obj))]).
Proof.
  intros Hget Hmeta Horg Hallow Hbuf.
  unfold run, transformStage, bind, try, getObject, metadata, perform.
  rewrite Hget, Hmeta. unfold transformBlock, bind. rewrite Horg. cbn [negb].
  assert (Ha : negb (strictEq (ALLOW_TRANSFORM_IMAGE_WIDTHS env) (Some ""))
               && negb (strictEq (ALLOW_TRANSFORM_IMAGE_HEIGHTS env) (Some ""))
               = false).
  { destruct Hallow as [-> | ->]; cbn; [reflexivity|apply andb_false_r]. }
  rewrite Ha. unfold ret.
  unfold requestedPipeline in Hbuf |- *.
  destruct (formatting (operationsJSON ops) (ContentType obj)) as [formatted ct].
  cbn [fst snd] in *. unfold toBuffer, perform.
  assert (Hp : (([resize (resizing meta (operationsJSON ops))]
                   ++ (if truthyNumber match orientation meta with
                                       | Some z => Num z
                                       | None => NaN
                                       end
                       then [rotate] else [])) ++ formatted)%list
               = (resize (resizing meta (operationsJSON ops))
                    :: (match orientation meta with
                        | Some z => if z =? 0 then [] else [rotate]
                        | None => []
                        end ++ formatted))%list).
  { destruct (orientation meta) as [z|]; cbn; [|reflexivity].
    destruct (z =? 0); reflexivity. }
  rewrite Hp, Hbuf. reflexivity.
Qed.

(** A function URL request that passed the checks of lines 412 and 415
    is answered by [transformImage] on the path and operations of lines
    416-423. *)
Lemma handler_direct ev hs http secret :
  run (isObjectCreated ev) = (Ok false, []) ->
  ev_headers ev = Some hs ->
  get "x-origin-secret-header" hs = Some secret ->
  secret <> "" ->
  SECRET_KEY env = Some secret ->
  ev_requestContext ev = Some (Some http) ->
  method http = "GET" ->
  run (handler W env ev) =
  let '(r, t) := run (transformImage W env (requestedImagePath (path http))
                                     (requestedOperations (path http))) in
  (match r with Ok x => Ok (Some x) | Throw => Throw end, t).
Proof.
  intros Hs Hh Hg Hne Hk Hc Hm.
  unfold run, handler, bind in *. rewrite Hs, Hh, Hg, Hc, Hm, Hk. simpl.
  destruct (String.eqb secret "") eqn:E.
  - apply String.eqb_eq in E. contradiction.
  - rewrite String.eqb_refl. simpl.
    destruct (transformImage W env _ _ []) as [[x|] t]; reflexivity.
Qed.

End ImageProcessingFacts.


Section ImageProcessingClaims.

Import ImageProcessing.
Variable W : World.
Variable env : Env.

Lemma directRequest_branch (ev : event) :
  directRequest ev -> run (isObjectCreated ev) = (Ok false, []).
Proof.
  unfold directRequest, run, isObjectCreated.
  destruct (ev_Records ev) as [[|r l]|]; try contradiction.
  - intros ->. reflexivity.
  - reflexivity.
Qed.

(** C1.  A direct request whose [x-origin-secret-header] is absent, or
    differs from the configured secret, is answered 403 "Request
    unauthorized", and the handler has called neither the store nor the
    codec: the trace of calls is empty. *)
Theorem unauthorized_request_is_rejected (ev : event) (hs : object string) :
  directRequest ev ->
  ev_headers ev = Some hs ->
  get "x-origin-secret-header" hs = None
  \/ get "x-origin-secret-header" hs <> SECRET_KEY env ->
  run (handler W env ev)
  = (Ok (Some (sendError 403 "Request unauthorized")), []).
Proof.
  intros Hd Hh Hs.
  pose proof (directRequest_branch ev Hd) as Hb.
  unfold run, handler, bind in *. rewrite Hb, Hh.
  destruct Hs as [Hs|Hs].
  - rewrite Hs. reflexivity.
  - apply strictEq_false in Hs. rewrite Hs.
    now rewrite orb_true_r.
Qed.


(** C3.  When the transformed image is larger than [MAX_IMAGE_SIZE] and
    the write to the store throws, the response is the 403 "too big"
    error: it is neither a 302 nor a 200, and it does not carry the
    image. *)
Theorem oversize_failure (originalImagePath operationsPrefix : string)
        (transformedImage : bytes) (contentType : option string)
        (t : list call) (ceiling : Z) :
  run (transformStage W env originalImagePath operationsPrefix)
  = (Ok (inr (transformedImage, contentType)), t) ->
  MAX_IMAGE_SIZE env = Num ceiling ->
  ceiling < byteLength transformedImage ->
  s3_putObject W (putDerived env originalImagePath operationsPrefix
                             transformedImage contentType) = false ->
  exists r : response,
    run (transformImage W env originalImagePath operationsPrefix)
    = (Ok r, (t ++ [PutObject (putDerived env originalImagePath operationsPrefix
                                          transformedImage contentType)])%list)
    /\ r = sendError 403 "Requested transformed image is too big"
    /\ statusCode r <> 302
    /\ statusCode r <> 200
    /\ body r <> Some (base64 transformedImage).
Proof.
  intros Hstage Hmax Hbig Hput.
  exists (sendError 403 "Requested transformed image is too big").
  rewrite (transformImage_transformed _ _ _ _ _ _ _ Hstage), respondStage_run.
  rewrite Hput, Hmax, (exceeds_true _ _ Hbig). simpl.
  repeat split; discriminate.
Qed.

(** C4.  When the transformed image is within [MAX_IMAGE_SIZE], the
    response is the same whatever the store answers to the write, in
    particular when the write throws: status 200 with the transformed
    bytes, the resolved content type and the cache lifetime. *)
Theorem store_failure_does_not_change_response
        (originalImagePath operationsPrefix : string)
        (transformedImage : bytes) (contentType : option string)
        (t : list call) (ceiling : Z) (stored : bool) :
  run (transformStage W env originalImagePath operationsPrefix)
  = (Ok (inr (transformedImage, contentType)), t) ->
  MAX_IMAGE_SIZE env = Num ceiling ->
  byteLength transformedImage <= ceiling ->
  s3_putObject W (putDerived env originalImagePath operationsPrefix
                             transformedImage contentType) = stored ->
  run (transformImage W env originalImagePath operationsPrefix)
  = (Ok {| statusCode := 200;
           body := Some (base64 transformedImage);
           isBase64Encoded := true;
           headers :=
             [("Content-Type", contentType);
              ("Cache-Control", TRANSFORMED_IMAGE_CACHE_TTL env)] |},
     (t ++ [PutObject (putDerived env originalImagePath operationsPrefix
                                  transformedImage contentType)])%list).
Proof.
  intros Hstage Hmax Hfit Hput.
  rewrite (transformImage_transformed _ _ _ _ _ _ _ Hstage), respondStage_run.
  rewrite Hmax, (exceeds_false _ _ Hfit), andb_false_r. reflexivity.
Qed.

End ImageProcessingClaims.

(** The transform stage of the sample world, on which the theorems above
    are instantiated. *)
Lemma sample_transformStage (accepts : bool) (ceiling : string) :
  run (ImageProcessing.transformStage (Sample.world accepts) (Sample.env ceiling)
         "sample/1.jpg" "f=webp,w=400")
  = (Ok (inr (Sample.derived, Some "image/webp")),
     [GetObject (Some "images-s3-original") "sample/1.jpg";
      Metadata Sample.original;
      ToBuffer Sample.original
        [resize {| resize_width := Some (Num 400);
                   resize_height := None;
                   resize_fit := None |};
         toFormat "webp" None]]).
Proof. reflexivity. Qed.

Lemma unauthorized_request_is_rejected_witness :
  run (ImageProcessing.handler (Sample.world true) (Sample.env "4700000")
         (Sample.direct (Some "guess") "/sample/1.jpg/f=webp,w=400"))
  = (Ok (Some (ImageProcessing.sendError 403 "Request unauthorized")), []).
Proof.
  apply (unauthorized_request_is_rejected (Sample.world true) (Sample.env "4700000")
           (Sample.direct (Some "guess") "/sample/1.jpg/f=webp,w=400")
           [("x-origin-secret-header", "guess")]).
  - exact I.
  - reflexivity.
  - right. discriminate.
Defined.


Lemma oversize_failure_witness :
  exists r : response,
    fst (run (ImageProcessing.transformImage (Sample.world false) (Sample.env "1")
                "sample/1.jpg" "f=webp,w=400")) = Ok r
    /\ statusCode r = 403.
Proof.
  destruct (oversize_failure (Sample.world false) (Sample.env "1")
              "sample/1.jpg" "f=webp,w=400" Sample.derived (Some "image/webp")
              _ 1 (sample_transformStage false "1"))
    as [r [Hrun [Hr _]]].
  - reflexivity.
  - reflexivity.
  - reflexivity.
  - exists r. rewrite Hrun, Hr. split; reflexivity.
Defined.

Lemma store_failure_does_not_change_response_witness :
  fst (run (ImageProcessing.transformImage (Sample.world false) (Sample.env "4700000")
              "sample/1.jpg" "f=webp,w=400"))
  = Ok {| statusCode := 200;
          body := Some (base64 Sample.derived);
          isBase64Encoded := true;
          headers := [("Content-Type", Some "image/webp");
                      ("Cache-Control", Some "max-age=31622400")] |}.
Proof.
  rewrite (store_failure_does_not_change_response
             (Sample.world false) (Sample.env "4700000")
             "sample/1.jpg" "f=webp,w=400" Sample.derived (Some "image/webp")
             _ 4700000 false (sample_transformStage false "4700000")).
  - reflexivity.
  - reflexivity.
  - unfold byteLength. simpl. lia.
  - reflexivity.
Defined.

(* ------------------------------------------------------------------ *)
(** *** The resize target *)

Section Resizing.

Import ImageProcessing.

Lemma min_orElse_le (n : number) (d : Z) : Z.min (orElse n d) d <= d.
Proof. lia. Qed.

(** The handler of lines 431-564 never asks the codec for more than the
    intrinsic size, on either axis. *)
Lemma resizing_never_upscales (meta : imageMetadata) (ops : object (option string)) :
  (forall n, resize_width (resizing meta ops) = Some n ->
             exists x, n = Num x /\ x <= width meta)
  /\ (forall n, resize_height (resizing meta ops) = Some n ->
                exists x, n = Num x /\ x <= height meta).
Proof.
  unfold resizing.
  destruct (truthy (lookup "w" ops)), (truthy (lookup "h" ops)),
    (truthy (lookup "mw" ops)), (truthy (lookup "mh" ops));
    simpl; split; intros n [= <-] || intros n [=];
    eexists; (split; [reflexivity | apply min_orElse_le]).
Qed.

(** With [w] alone, the width asked for is [min(requested, intrinsic)]. *)
Lemma resizing_width_is_min (meta : imageMetadata) (ops : object (option string))
      (requested : Z) :
  truthy (lookup "w" ops) = true ->
  truthy (lookup "mw" ops) = false ->
  parseIntValue (lookup "w" ops) = Num requested ->
  requested <> 0 ->
  resize_width (resizing meta ops) = Some (Num (Z.min requested (width meta))).
Proof.
  intros Hw Hmw Hp Hz. unfold resizing. rewrite Hw, Hmw, Hp.
  assert (E : orElse (Num requested) (width meta) = requested).
  { simpl. destruct (requested =? 0) eqn:E; [|reflexivity].
    apply Z.eqb_eq in E. contradiction. }
  destruct (truthy (lookup "h" ops)), (truthy (lookup "mh" ops));
    cbn [resize_width]; now rewrite E.
Qed.

Example resizing_w9999 :
  resizing {| width := 800; height := 600; orientation := None |}
           (operationsJSON "w=9999")
  = {| resize_width := Some (Num 800); resize_height := None; resize_fit := None |}.
Proof. reflexivity. Qed.

End Resizing.

(** The handler of lines 635-741 asks for the width as parsed. *)
Lemma esm_resizing_width (ops : object (option string)) (requested : number) :
  truthy (lookup "w" ops) = true ->
  parseIntValue (lookup "w" ops) = requested ->
  resize_width (ImageProcessingEsm.resizing ops) = Some requested.
Proof.
  intros Hw Hp. unfold ImageProcessingEsm.resizing. cbn [resize_width].
  now rewrite Hw, Hp.
Qed.

(** C5.  The handler of lines 635-741 hands the requested width to the
    codec as parsed: for [w=9999] the resize target is 9999 whatever the
    intrinsic width, and on the 800x600 original of the sample world the
    codec is called with that target. *)
Theorem esm_resize_target_not_clamped :
  ImageProcessingEsm.resizing (ImageProcessingEsm.operationsJSON "w=9999")
  = {| resize_width := Some (Num 9999); resize_height := None; resize_fit := None |}
  /\ In (ToBuffer Sample.original
           [resize {| resize_width := Some (Num 9999);
                      resize_height := None;
                      resize_fit := None |}])
        (snd (run (ImageProcessingEsm.transformImage
                     (Sample.world true) (Sample.env "4700000")
                     "sample/1.jpg" "w=9999")))
  /\ sharp_metadata (Sample.world true) Sample.original
     = Some {| width := 800; height := 600; orientation := None |}.
Proof.
  split; [reflexivity|]. split; [|reflexivity].
  vm_compute. auto.
Qed.

(* ------------------------------------------------------------------ *)
(** *** Re-encoding and quality *)

Section Formatting.

Import ImageProcessing.

(** Lines 486-516 gate the option read from the key [quality]: it is
    passed to [toFormat] for every format but [gif] and [png]. *)
Lemma formatting_quality_key (ops : object (option string))
      (contentType : option string) (f : string) :
  lookup "f" ops = Some f -> f <> "" -> f <> "org" ->
  truthy (lookup "quality" ops) = true ->
  fst (formatting ops contentType)
  = [toFormat f (if lossless f then None
                 else Some (parseIntValue (lookup "quality" ops)))].
Proof.
  intros Hf Hne Horg Hq. unfold formatting, lossless. rewrite Hf, Hq.
  apply String.eqb_neq in Hne, Horg. rewrite Hne, Horg. simpl.
  destruct (String.eqb f "jpeg") eqn:E1.
  { apply String.eqb_eq in E1. subst f. reflexivity. }
  destruct (String.eqb f "gif") eqn:E2; [reflexivity|].
  destruct (String.eqb f "webp") eqn:E3.
  { apply String.eqb_eq in E3. subst f. reflexivity. }
  destruct (String.eqb f "png") eqn:E4; [reflexivity|].
  destruct (String.eqb f "avif"); reflexivity.
Qed.

(** Without a key [quality], no quality reaches the codec. *)
Lemma formatting_without_quality_key (ops : object (option string))
      (contentType : option string) (op : sharp_op) :
  lookup "quality" ops = None ->
  In op (fst (formatting ops contentType)) ->
  exists f, op = toFormat f None.
Proof.
  intros Hq. unfold formatting. rewrite Hq.
  destruct (lookup "f" ops) as [f|]; [|intros []].
  destruct (negb (String.eqb f "") && negb (String.eqb f "org")); [|intros []].
  simpl truthy. cbv iota beta.
  destruct (String.eqb f "jpeg"); [|destruct (String.eqb f "gif");
    [|destruct (String.eqb f "webp"); [|destruct (String.eqb f "png");
      [|destruct (String.eqb f "avif")]]]];
    simpl; intros [<-|[]]; now exists f.
Qed.

End Formatting.

(** C6.  The canonical operation string carries the quality under the key
    [q], which lines 511-515 do not read: for [f=jpeg,q=50] the codec is
    asked for [toFormat('jpeg')] without a quality, whereas
    [f=jpeg,quality=50] passes 50. *)
Theorem requested_quality_not_applied :
  (forall contentType,
      ImageProcessing.formatting (ImageProcessing.operationsJSON "f=jpeg,q=50")
                                 contentType
      = ([toFormat "jpeg" None], Some "image/jpeg"))
  /\ (forall contentType,
         ImageProcessing.formatting
           (ImageProcessing.operationsJSON "f=jpeg,quality=50") contentType
         = ([toFormat "jpeg" (Some (Num 50))], Some "image/jpeg"))
  /\ In (ToBuffer Sample.original
           [resize {| resize_width := None;
                      resize_height := None;
                      resize_fit := None |};
            toFormat "jpeg" None])
        (snd (run (ImageProcessing.transformImage
                     (Sample.world true) (Sample.env "4700000")
                     "sample/1.jpg" "f=jpeg,q=50"))).
Proof.
  split; [reflexivity|]. split; [reflexivity|].
  vm_compute. auto.
Qed.

(* ------------------------------------------------------------------ *)
(** *** The key of the derived image *)

Section DerivedKey.

Import ImageProcessing.

Lemma replace_strip (token s : string) : replace token "" s = strip token s.
Proof.
  unfold strip. destruct (indexOf token s) as [n|] eqn:E.
  - now rewrite (replace_found _ _ _ _ E).
  - now apply replace_not_found.
Qed.

Lemma shortenOperationsPrefix_persisted (operationsPrefix : string) :
  shortenOperationsPrefix operationsPrefix = persistedOperations operationsPrefix.
Proof.
  unfold shortenOperationsPrefix, persistedOperations.
  now rewrite !replace_strip.
Qed.

Lemma derivedKey_persisted (originalImagePath operationsPrefix : string) :
  derivedKey originalImagePath operationsPrefix
  = persistedPath originalImagePath ++ "/" ++ persistedOperations operationsPrefix.
Proof.
  unfold derivedKey, persistedPath. rewrite shortenOperationsPrefix_persisted.
  destruct (indexOf "/static-assets/" originalImagePath) as [n|] eqn:E.
  - now rewrite (replace_found _ _ _ _ E).
  - now rewrite (replace_not_found _ _ _ E).
Qed.

End DerivedKey.

(** C10, as the code has it.  The derived image is written under the
    persisted path (the original path with its first [/static-assets/]
    moved under [/transformed]) followed by the operations prefix with
    the no-op tokens [org,f=org], [org,] and [,f=org] stripped, or by
    [original] when nothing is left; so [org,f=org] and [original] are
    written under the same key, which is [originalImagePath + '/original']
    when the path has no [/static-assets/]. *)
Theorem noop_operations_share_derived_key
        (W : World) (env : Env) (originalImagePath operationsPrefix : string)
        (transformedImage : bytes) (contentType : option string) (t : list call) :
  run (ImageProcessing.transformStage W env originalImagePath operationsPrefix)
  = (Ok (inr (transformedImage, contentType)), t) ->
  exists (r : response) (q : put_request),
    run (ImageProcessing.transformImage W env originalImagePath operationsPrefix)
    = (Ok r, (t ++ [PutObject q])%list)
    /\ put_Key q = persistedPath originalImagePath ++ "/"
                     ++ persistedOperations operationsPrefix
    /\ persistedOperations "org,f=org" = "original"
    /\ persistedOperations "original" = "original"
    /\ (operationsPrefix = "org,f=org" \/ operationsPrefix = "original" ->
        put_Key q = persistedPath originalImagePath ++ "/original")
    /\ (indexOf "/static-assets/" originalImagePath = None ->
        persistedPath originalImagePath = originalImagePath).
Proof.
  intros Hstage.
  rewrite (transformImage_transformed _ _ _ _ _ _ _ Hstage), respondStage_run.
  eexists. eexists. split; [reflexivity|].
  cbn [put_Key ImageProcessing.putDerived]. rewrite derivedKey_persisted.
  split; [reflexivity|]. split; [reflexivity|]. split; [reflexivity|]. split.
  - intros [-> | ->]; reflexivity.
  - unfold persistedPath. now intros ->.
Qed.

Lemma sample_transformStage_noop (p : string) :
  run (ImageProcessing.transformStage (Sample.world true) (Sample.env "4700000")
         p "org,f=org")
  = (Ok (inr (Sample.derived, Some "image/jpeg")),
     [GetObject (Some "images-s3-original") p;
      Metadata Sample.original;
      ToBuffer Sample.original
        [resize {| resize_width := None;
                   resize_height := None;
                   resize_fit := None |}]]).
Proof. reflexivity. Qed.

Lemma noop_operations_share_derived_key_witness :
  exists (r : response) (q : put_request),
    snd (run (ImageProcessing.transformImage
                (Sample.world true) (Sample.env "4700000")
                "sample/1.jpg" "org,f=org"))
    = [GetObject (Some "images-s3-original") "sample/1.jpg";
       Metadata Sample.original;
       ToBuffer Sample.original
         [resize {| resize_width := None;
                    resize_height := None;
                    resize_fit := None |}];
       PutObject q]
    /\ put_Key q = "sample/1.jpg/original".
Proof.
  destruct (noop_operations_share_derived_key
              (Sample.world true) (Sample.env "4700000")
              "sample/1.jpg" "org,f=org" Sample.derived (Some "image/jpeg") _
              (sample_transformStage_noop "sample/1.jpg"))
    as [r [q [Hrun [_ [_ [_ [Hkey _]]]]]]].
  exists r, q. rewrite Hrun. split; [reflexivity|].
  rewrite Hkey; [reflexivity | now left].
Defined.

(** C10, as stated, fails on a path with [/static-assets/]: the key of
    the write is not [originalImagePath + '/original']. *)
Lemma derived_key_static_assets_counterexample :
  exists (r : response) (q : put_request) (t : list call),
    run (ImageProcessing.transformImage
           (Sample.world true) (Sample.env "4700000")
           "site/static-assets/a.jpg" "org,f=org")
    = (Ok r, (t ++ [PutObject q])%list)
    /\ put_Key q = "site/transformed/static-assets/a.jpg/original"
    /\ put_Key q <> "site/static-assets/a.jpg" ++ "/original".
Proof.
  eexists. eexists.
  exists [GetObject (Some "images-s3-original") "site/static-assets/a.jpg";
          Metadata Sample.original;
          ToBuffer Sample.original
            [resize {| resize_width := None;
                       resize_height := None;
                       resize_fit := None |}]].
  split; [reflexivity|]. split; [reflexivity|]. discriminate.
Qed.

(* ================================================================== *)
(** ** The edge normalizer *)

Section ObjectFacts.

Context {V : Type}.

Lemma get_set (k k' : string) (v : V) (o : object V) :
  get k (set k' v o) = if String.eqb k k' then Some v else get k o.
Proof.
  induction o as [|[k0 v0] o IH]; simpl.
  - destruct (String.eqb k k'); reflexivity.
  - destruct (String.eqb k' k0) eqn:E; simpl.
    + apply String.eqb_eq in E. subst k0.
      destruct (String.eqb k k'); reflexivity.
    + rewrite IH. destruct (String.eqb k k0) eqn:E0; [|reflexivity].
      apply String.eqb_eq in E0. subst k0.
      rewrite String.eqb_sym in E. now rewrite E.
Qed.

Lemma set_not_empty (k : string) (v : V) (o : object V) : set k v o <> [].
Proof.
  destruct o as [|[k0 v0] o]; simpl; [discriminate|].
  destruct (String.eqb k k0); discriminate.
Qed.

End ObjectFacts.

Section Normalizer.

Import UrlRewrite.
Variable req : request.

Lemma autoFormat_negotiated : autoFormat req = negotiated (get "accept" (headers req)).
Proof.
  unfold autoFormat, negotiated, advertises.
  destruct (get "accept" (headers req)); reflexivity.
Qed.

(** One step of the loop records the value of a valid parameter under
    its lower-case name and skips every other parameter. *)
Lemma operation_valid (ops : object string) (parameter : string * string) :
  operation req ops parameter
  = if validParameter parameter
    then set (lowerKey parameter) (storedValue req parameter) ops
    else ops.
Proof.
  destruct parameter as [name value].
  unfold operation, validParameter, validOperation, storedValue,
    storedOperation, lowerKey.
  cbn [fst snd]. rewrite <- autoFormat_negotiated.
  remember (toLowerCase name) as key eqn:Hkey. clear Hkey.
  destruct (String.eqb key "f") eqn:Ef.
  { apply String.eqb_eq in Ef. subst key.
    destruct (truthy (Some value)
              && arrayIncludes SUPPORTED_FORMATS (toLowerCase value));
      reflexivity. }
  destruct (String.eqb key "w") eqn:Ew.
  { apply String.eqb_eq in Ew. subst key. cbn [orb].
    destruct (positiveValue value); reflexivity. }
  destruct (String.eqb key "h") eqn:Eh.
  { apply String.eqb_eq in Eh. subst key. cbn [orb].
    destruct (positiveValue value); reflexivity. }
  destruct (String.eqb key "mw") eqn:Emw.
  { apply String.eqb_eq in Emw. subst key. cbn [orb].
    destruct (positiveValue value); reflexivity. }
  destruct (String.eqb key "mh") eqn:Emh.
  { apply String.eqb_eq in Emh. subst key. cbn [orb].
    destruct (positiveValue value); reflexivity. }
  destruct (String.eqb key "q") eqn:Eq.
  { apply String.eqb_eq in Eq. subst key. cbn [orb andb].
    destruct (positiveValue value); reflexivity. }
  reflexivity.
Qed.

Lemma get_fold_operation (k : string) (qs : object string) (ops : object string) :
  get k (fold_left (operation req) qs ops)
  = match find (decides k) (rev qs) with
    | Some parameter => Some (storedValue req parameter)
    | None => get k ops
    end.
Proof.
  induction qs as [|parameter qs IH] using rev_ind; [reflexivity|].
  rewrite fold_left_app, rev_app_distr. cbn [fold_left rev app find].
  rewrite operation_valid. unfold decides at 1.
  destruct (validParameter parameter); cbn [andb]; [|exact IH].
  rewrite get_set, (String.eqb_sym k).
  destruct (String.eqb (lowerKey parameter) k); [reflexivity|exact IH].
Qed.

Lemma get_normalizedOperations (k : string) (qs : object string) :
  get k (normalizedOperations req qs)
  = option_map (storedValue req) (find (decides k) (rev qs)).
Proof.
  unfold normalizedOperations. rewrite get_fold_operation.
  destruct (find (decides k) (rev qs)); reflexivity.
Qed.

Lemma fold_operation_empty (qs : object string) (ops : object string) :
  fold_left (operation req) qs ops = []
  <-> ops = [] /\ existsb validParameter qs = false.
Proof.
  revert ops. induction qs as [|parameter qs IH]; intros ops; cbn [fold_left existsb].
  - tauto.
  - rewrite IH, operation_valid.
    destruct (validParameter parameter); cbn [orb].
    + split; [intros [H _]; now apply set_not_empty in H | intros [_ H]; discriminate].
    + tauto.
Qed.

(** [Object.keys(normalizedOperations).length > 0] holds exactly when
    some parameter is a valid operation. *)
Lemma normalizedOperations_keys (qs : object string) :
  (0 <? List.length (keys (normalizedOperations req qs)))%nat
  = existsb validParameter qs.
Proof.
  destruct (existsb validParameter qs) eqn:E.
  - destruct (normalizedOperations req qs) as [|e o] eqn:En; [|reflexivity].
    apply fold_operation_empty in En. destruct En as [_ En]. congruence.
  - assert (H : normalizedOperations req qs = [])
      by (apply fold_operation_empty; auto).
    now rewrite H.
Qed.

End Normalizer.

Section ListFacts.

Context {A : Type}.

Lemma find_app (Q : A -> bool) (l1 l2 : list A) :
  find Q (l1 ++ l2)%list
  = match find Q l1 with Some x => Some x | None => find Q l2 end.
Proof.
  induction l1 as [|a l1 IH]; simpl; [reflexivity|].
  destruct (Q a); [reflexivity|exact IH].
Qed.

Lemma find_all_false (Q : A -> bool) (l : list A) :
  (forall x, In x l -> Q x = false) -> find Q l = None.
Proof.
  induction l as [|a l IH]; simpl; intros H; [reflexivity|].
  rewrite (H a (or_introl eq_refl)). apply IH. intros x Hx. apply H. now right.
Qed.

Lemma find_map {B : Type} (f : A -> B) (Q : B -> bool) (l : list A) :
  find Q (map f l) = option_map f (find (fun x => Q (f x)) l).
Proof.
  induction l as [|a l IH]; simpl; [reflexivity|].
  destruct (Q (f a)); [reflexivity|exact IH].
Qed.

Lemma existsb_map {B : Type} (f : A -> B) (Q : B -> bool) (l : list A) :
  existsb Q (map f l) = existsb (fun x => Q (f x)) l.
Proof.
  induction l as [|a l IH]; simpl; [reflexivity|]. now rewrite IH.
Qed.

Lemma existsb_Permutation (Q : A -> bool) (l1 l2 : list A) :
  Permutation l1 l2 -> existsb Q l1 = existsb Q l2.
Proof.
  induction 1 as [|x l l' _ IH|x y l|l l' l'' _ IH1 _ IH2]; simpl.
  - reflexivity.
  - now rewrite IH.
  - destruct (Q x), (Q y); reflexivity.
  - congruence.
Qed.

(** When at most one element of a list satisfies [Q], [find Q] does not
    depend on the order of the list. *)
Lemma find_Permutation (Q : A -> bool) (l1 l2 : list A) :
  (forall a b, In a l1 -> In b l1 -> Q a = true -> Q b = true -> a = b) ->
  Permutation l1 l2 ->
  find Q l1 = find Q l2.
Proof.
  intros Huniq Hperm.
  destruct (find Q l1) as [a|] eqn:E1, (find Q l2) as [b|] eqn:E2.
  - apply find_some in E1, E2. destruct E1 as [Ha Qa], E2 as [Hb Qb].
    f_equal. apply Huniq; auto.
    apply (Permutation_in _ (Permutation_sym Hperm) Hb).
  - apply find_some in E1. destruct E1 as [Ha Qa].
    pose proof (find_none _ _ E2 a (Permutation_in _ Hperm Ha)). congruence.
  - apply find_some in E2. destruct E2 as [Hb Qb].
    pose proof (find_none _ _ E1 b
                  (Permutation_in _ (Permutation_sym Hperm) Hb)). congruence.
  - reflexivity.
Qed.

End ListFacts.

Lemma NoDup_map_unique {A B : Type} (f : A -> B) (l : list A) (a b : A) :
  NoDup (map f l) -> In a l -> In b l -> f a = f b -> a = b.
Proof.
  induction l as [|x l IH]; simpl; intros Hnd Ha Hb Hab; [contradiction|].
  inversion Hnd as [|? ? Hx Hnd']; subst.
  destruct Ha as [<-|Ha], Hb as [<-|Hb].
  - reflexivity.
  - exfalso. apply Hx. rewrite Hab. now apply in_map.
  - exfalso. apply Hx. rewrite <- Hab. now apply in_map.
  - now apply IH.
Qed.

Lemma append_assoc (a b c : string) : (a ++ b) ++ c = a ++ (b ++ c).
Proof. induction a as [|x a IH]; simpl; [reflexivity|]. now rewrite IH. Qed.

Lemma append_not_empty (a b : string) : b <> "" -> a ++ b <> "".
Proof. destruct a; simpl; [auto|discriminate]. Qed.

Lemma join_not_empty (sep a : string) (rest : list string) :
  a <> "" -> join sep (a :: rest) <> "".
Proof.
  unfold join. simpl. destruct rest as [|b rest]; [auto|].
  destruct a; [contradiction|discriminate].
Qed.

Lemma toString_not_empty (z : Z) : toString z <> "".
Proof.
  unfold toString, NilZero.string_of_int, NilZero.string_of_uint.
  destruct (Z.to_int z) as [d|d]; [|discriminate].
  destruct d; simpl; discriminate.
Qed.

Section Canonical.

Import UrlRewrite.

Lemma pushed_canonical (k : string) (ops : object string) :
  pushed k ops
  = map (fun k => k ++ "=" ++ match get k ops with Some v => v | None => "" end)
        (filter (fun k => truthy (get k ops)) [k]).
Proof.
  unfold pushed. cbn [filter].
  destruct (get k ops) as [v|] eqn:E; [|reflexivity].
  destruct (truthy (Some v)); cbn [map]; [now rewrite E|reflexivity].
Qed.

(** Lines 89-95 emit the fields in the canonical order. *)
Lemma normalizedOperationsArray_canonical (ops : object string) :
  normalizedOperationsArray ops = canonicalFields ops.
Proof.
  unfold normalizedOperationsArray, canonicalFields.
  rewrite !pushed_canonical, <- !map_app, <- !filter_app. reflexivity.
Qed.

Lemma normalizedOperationsArray_ext (o1 o2 : object string) :
  (forall k, get k o1 = get k o2) ->
  normalizedOperationsArray o1 = normalizedOperationsArray o2.
Proof.
  intros H. unfold normalizedOperationsArray, pushed. now rewrite !H.
Qed.

Lemma validOperation_key (key value : string) :
  validOperation key value = true -> In key CANONICAL_ORDER.
Proof.
  unfold validOperation, CANONICAL_ORDER.
  destruct (String.eqb key "f") eqn:Ef.
  { apply String.eqb_eq in Ef. subst. simpl. auto. }
  destruct (String.eqb key "w") eqn:Ew.
  { apply String.eqb_eq in Ew. subst. simpl. auto. }
  destruct (String.eqb key "h") eqn:Eh.
  { apply String.eqb_eq in Eh. subst. simpl. auto. }
  destruct (String.eqb key "mw") eqn:Emw.
  { apply String.eqb_eq in Emw. subst. simpl. auto 7. }
  destruct (String.eqb key "mh") eqn:Emh.
  { apply String.eqb_eq in Emh. subst. simpl. auto 7. }
  destruct (String.eqb key "q") eqn:Eq.
  { apply String.eqb_eq in Eq. subst. simpl. auto. }
  discriminate.
Qed.

Lemma negotiated_not_empty (accept : option string) : negotiated accept <> "".
Proof.
  unfold negotiated.
  destruct (advertises accept "avif"); [discriminate|].
  destruct (advertises accept "webp"); discriminate.
Qed.

(** What is recorded for a valid parameter is never the empty string. *)
Lemma storedOperation_not_empty (accept : option string) (key value : string) :
  validOperation key value = true -> storedOperation accept key value <> "".
Proof.
  unfold validOperation, storedOperation.
  destruct (String.eqb key "f").
  - intros H. apply andb_prop in H. destruct H as [_ H].
    destruct (String.eqb (toLowerCase value) "auto");
      [apply negotiated_not_empty|].
    unfold arrayIncludes, SUPPORTED_FORMATS in H. cbn [existsb] in H.
    repeat (apply orb_prop in H; destruct H as [H|H];
            [apply String.eqb_eq in H; rewrite H; discriminate|]).
    discriminate.
  - destruct (positiveValue value); intros H.
    + apply toString_not_empty.
    + destruct (String.eqb key "w" || String.eqb key "h" || String.eqb key "mw"
                || String.eqb key "mh" || String.eqb key "q"); discriminate.
Qed.

End Canonical.

Section Segment.

Import UrlRewrite.

(** For a path with a supported extension and a request with the
    [crafterSite] cookie, the rewritten URI is the site folder, the
    folder of transformed images, the path and the operation segment. *)
Lemma handler_supported (req : request) (site : string) :
  isTransformSupported (uri req) = true ->
  get "crafterSite" (cookies req) = Some site ->
  rewrittenUri {| event_request := req |}
  = Ok (sitePrefix site ++ "/transformed" ++ uri req ++ "/" ++ operationSegment req).
Proof.
  intros Hs Hc. unfold rewrittenUri, handler, sitePrefix. cbn [event_request].
  rewrite Hs. cbn [cookies uri]. rewrite Hc. unfold truthy.
  destruct (String.eqb site ""); reflexivity.
Qed.

(** A path without supported extension is left as it is, apart from the
    site folder. *)
Lemma handler_unsupported (req : request) (site : string) :
  isTransformSupported (uri req) = false ->
  get "crafterSite" (cookies req) = Some site ->
  rewrittenUri {| event_request := req |} = Ok (sitePrefix site ++ uri req).
Proof.
  intros Hs Hc. unfold rewrittenUri, handler, sitePrefix. cbn [event_request].
  rewrite Hs, Hc. unfold truthy.
  destruct (String.eqb site ""); reflexivity.
Qed.

Lemma operationSegment_query (req : request) (qs : object string) :
  querystring req = Some qs ->
  operationSegment req
  = if existsb validParameter qs
    then join "," (normalizedOperationsArray (normalizedOperations req qs))
    else "original".
Proof.
  intros Hq. unfold operationSegment. rewrite Hq.
  now rewrite normalizedOperations_keys.
Qed.

(** A valid parameter leaves a non-empty value under its field. *)
Lemma valid_parameter_recorded (req : request) (qs : object string)
      (parameter : string * string) :
  In parameter qs -> validParameter parameter = true ->
  exists v, get (lowerKey parameter) (normalizedOperations req qs) = Some v
            /\ v <> "".
Proof.
  intros Hin Hv. rewrite get_normalizedOperations.
  destruct (find (decides (lowerKey parameter)) (rev qs)) as [p|] eqn:E.
  - apply find_some in E. destruct E as [_ E].
    unfold decides in E. apply andb_prop in E. destruct E as [E _].
    exists (storedValue req p). split; [reflexivity|].
    now apply storedOperation_not_empty.
  - apply in_rev in Hin. pose proof (find_none _ _ E parameter Hin) as Hd.
    unfold decides in Hd. now rewrite Hv, String.eqb_refl in Hd.
Qed.

(** The operation segment is never empty. *)
Lemma operationSegment_not_empty (req : request) : operationSegment req <> "".
Proof.
  destruct (querystring req) as [qs|] eqn:Hq.
  2:{ unfold operationSegment. rewrite Hq. discriminate. }
  rewrite (operationSegment_query _ _ Hq).
  destruct (existsb validParameter qs) eqn:E; [|discriminate].
  apply existsb_exists in E. destruct E as [p [Hin Hv]].
  destruct (valid_parameter_recorded req qs p Hin Hv) as [v [Hget Hne]].
  rewrite normalizedOperationsArray_canonical. unfold canonicalFields.
  assert (Hk : In (lowerKey p)
                  (filter (fun k => truthy (get k (normalizedOperations req qs)))
                          CANONICAL_ORDER)).
  { apply filter_In. split.
    - apply (validOperation_key _ _ Hv).
    - rewrite Hget. unfold truthy. apply String.eqb_neq in Hne. now rewrite Hne. }
  destruct (filter _ CANONICAL_ORDER) as [|k ks]; [contradiction|].
  cbn [map]. apply join_not_empty, append_not_empty. discriminate.
Qed.

Lemma decides_lowered (k : string) (parameter : string * string) :
  decides k parameter
  = (validOperation (fst (lowered parameter)) (snd (lowered parameter))
     && String.eqb (fst (lowered parameter)) k).
Proof. reflexivity. Qed.

(** The recorded operations only depend on the [Accept] header and on
    the parameters with their names in lower case; when no two valid
    parameters have names that agree up to case, they do not depend on
    the order either. *)
Lemma normalizedOperations_deterministic (req1 req2 : request)
      (qs1 qs2 : object string) (k : string) :
  headers req1 = headers req2 ->
  Permutation (map lowered qs1) (map lowered qs2) ->
  NoDup (map lowerKey (filter validParameter qs1)) ->
  get k (normalizedOperations req1 qs1) = get k (normalizedOperations req2 qs2).
Proof.
  intros Hh Hperm Hnd.
  set (Q := fun kv : string * string =>
              validOperation (fst kv) (snd kv) && String.eqb (fst kv) k).
  set (stored := fun kv : string * string =>
                   storedOperation (get "accept" (headers req1)) (fst kv) (snd kv)).
  assert (Hget : forall (r : request) qs,
             headers r = headers req1 ->
             get k (normalizedOperations r qs)
             = option_map stored (find Q (rev (map lowered qs)))).
  { intros r qs Hr. rewrite get_normalizedOperations, <- map_rev, find_map.
    unfold storedValue. rewrite Hr.
    destruct (find _ (rev qs)); reflexivity. }
  rewrite (Hget req1 qs1 eq_refl), (Hget req2 qs2 (eq_sym Hh)). f_equal.
  apply find_Permutation.
  - intros a b Ha Hb Qa Qb. apply in_rev in Ha, Hb.
    apply in_map_iff in Ha, Hb.
    destruct Ha as [p [<- Hp]], Hb as [p' [<- Hp']].
    unfold Q in Qa, Qb. apply andb_prop in Qa, Qb.
    destruct Qa as [Va Ka], Qb as [Vb Kb].
    apply String.eqb_eq in Ka, Kb. f_equal.
    apply (NoDup_map_unique lowerKey (filter validParameter qs1)); auto.
    + apply filter_In. now split.
    + apply filter_In. now split.
    + unfold lowerKey. cbn [lowered fst] in Ka, Kb. congruence.
  - apply Permutation_rev'. exact Hperm.
Qed.

Lemma validParameter_Permutation (qs1 qs2 : object string) :
  Permutation (map lowered qs1) (map lowered qs2) ->
  existsb validParameter qs1 = existsb validParameter qs2.
Proof.
  intros Hperm.
  pose proof (existsb_Permutation
                (fun kv => validOperation (fst kv) (snd kv)) _ _ Hperm) as H.
  now rewrite !existsb_map in H.
Qed.

End Segment.

Section NormalizerClaims.

Import UrlRewrite.

Lemma handler_without_cookie (req : request) :
  get "crafterSite" (cookies req) = None ->
  rewrittenUri {| event_request := req |} = Throw.
Proof.
  intros Hc. unfold rewrittenUri, handler. cbn [event_request].
  destruct (isTransformSupported (uri req)); cbn [cookies]; now rewrite Hc.
Qed.

Lemma operationSegment_deterministic (req1 req2 : request)
      (qs1 qs2 : object string) :
  headers req1 = headers req2 ->
  querystring req1 = Some qs1 ->
  querystring req2 = Some qs2 ->
  Permutation (map lowered qs1) (map lowered qs2) ->
  NoDup (map lowerKey (filter validParameter qs1)) ->
  operationSegment req1 = operationSegment req2.
Proof.
  intros Hh Hq1 Hq2 Hperm Hnd.
  rewrite (operationSegment_query _ _ Hq1), (operationSegment_query _ _ Hq2).
  rewrite (validParameter_Permutation _ _ Hperm).
  rewrite (normalizedOperationsArray_ext
             (normalizedOperations req1 qs1) (normalizedOperations req2 qs2));
    [reflexivity|].
  intros k. now apply normalizedOperations_deterministic.
Qed.

(** C7, as the code has it.  The array joined into the operation string
    holds the fields in the order f, q, w, h, mw, mh; and two requests
    for the same path whose query parameters agree up to their order and
    the letter case of their names are rewritten to the same URI,
    provided no two valid parameters of a request have names that agree
    up to letter case. *)
Theorem canonical_order_is_deterministic (req1 req2 : request)
        (qs1 qs2 : object string) :
  uri req1 = uri req2 ->
  headers req1 = headers req2 ->
  cookies req1 = cookies req2 ->
  querystring req1 = Some qs1 ->
  querystring req2 = Some qs2 ->
  Permutation (map lowered qs1) (map lowered qs2) ->
  NoDup (map lowerKey (filter validParameter qs1)) ->
  normalizedOperationsArray (normalizedOperations req1 qs1)
  = canonicalFields (normalizedOperations req1 qs1)
  /\ rewrittenUri {| event_request := req1 |}
     = rewrittenUri {| event_request := req2 |}.
Proof.
  intros Hu Hh Hc Hq1 Hq2 Hperm Hnd.
  split; [apply normalizedOperationsArray_canonical|].
  pose proof (operationSegment_deterministic _ _ _ _ Hh Hq1 Hq2 Hperm Hnd) as Hseg.
  destruct (get "crafterSite" (cookies req1)) as [site|] eqn:E1.
  - pose proof E1 as E2. rewrite Hc in E2.
    destruct (isTransformSupported (uri req1)) eqn:Hs1.
    + pose proof Hs1 as Hs2. rewrite Hu in Hs2.
      rewrite (handler_supported _ _ Hs1 E1), (handler_supported _ _ Hs2 E2).
      now rewrite Hu, Hseg.
    + pose proof Hs1 as Hs2. rewrite Hu in Hs2.
      rewrite (handler_unsupported _ _ Hs1 E1), (handler_unsupported _ _ Hs2 E2).
      now rewrite Hu.
  - pose proof E1 as E2. rewrite Hc in E2.
    now rewrite (handler_without_cookie _ E1), (handler_without_cookie _ E2).
Qed.

(** Lines 23-36, one step of the loop: a parameter named [f] with the
    value [auto], both in any letter case, records the format negotiated
    from the [Accept] header. *)
Lemma operation_records_negotiated_format (req : request)
      (name value : string) (ops : object string) :
  toLowerCase name = "f" ->
  toLowerCase value = "auto" ->
  operation req ops (name, value)
  = set "f" (negotiated (get "accept" (headers req))) ops.
Proof.
  intros Hname Hvalue.
  assert (Hne : value <> "") by (intros ->; discriminate).
  rewrite operation_valid.
  unfold validParameter, storedValue, storedOperation, lowerKey, validOperation.
  cbn [fst snd]. rewrite Hname, Hvalue. cbn.
  apply String.eqb_neq in Hne. now rewrite Hne.
Qed.

(** C8, as the code has it.  For a request whose path has a supported
    extension, that carries the [crafterSite] cookie, and whose query
    parameter [f=auto] (name and value in any letter case) is followed by
    no valid parameter named [f] in any letter case, the normalizer
    records the format negotiated from the [Accept] header: avif if the
    header advertises it, else webp if the header advertises it, else
    jpeg, also without header; and the operation segment of the
    rewritten URI starts with that format. *)
Theorem auto_format_follows_accept_header (req : request)
        (name value : string) (before after : object string) (site : string) :
  toLowerCase name = "f" ->
  toLowerCase value = "auto" ->
  querystring req = Some (before ++ (name, value) :: after)%list ->
  (forall parameter, In parameter after ->
                     lowerKey parameter = "f" ->
                     validParameter parameter = false) ->
  isTransformSupported (uri req) = true ->
  get "crafterSite" (cookies req) = Some site ->
  get "f" (normalizedOperations req (before ++ (name, value) :: after)%list)
  = Some (negotiated (get "accept" (headers req)))
  /\ exists rest : list string,
    rewrittenUri {| event_request := req |}
    = Ok (sitePrefix site ++ "/transformed" ++ uri req ++ "/"
            ++ join "," (("f=" ++ negotiated (get "accept" (headers req)))
                           :: rest)).
Proof.
  intros Hname Hvalue Hq Hlater Hs Hc.
  assert (Hne : value <> "") by (intros ->; discriminate).
  assert (Hvalid : validParameter (name, value) = true).
  { unfold validParameter, lowerKey, validOperation. cbn [fst snd].
    rewrite Hname, Hvalue. cbn. apply String.eqb_neq in Hne. now rewrite Hne. }
  assert (Hstored : storedValue req (name, value)
                    = negotiated (get "accept" (headers req))).
  { unfold storedValue, storedOperation, lowerKey. cbn [fst snd].
    now rewrite Hname, Hvalue. }
  assert (Hget : get "f" (normalizedOperations req
                            (before ++ (name, value) :: after)%list)
                 = Some (negotiated (get "accept" (headers req)))).
  { rewrite get_normalizedOperations, rev_app_distr. cbn [rev].
    rewrite <- app_assoc, find_app, find_all_false.
    - cbn [app find]. unfold decides at 1. rewrite Hvalid.
      unfold lowerKey at 1. cbn [fst]. rewrite Hname. cbn.
      now rewrite Hstored.
    - intros p Hp. apply in_rev in Hp. unfold decides.
      destruct (String.eqb (lowerKey p) "f") eqn:Ef.
      + apply String.eqb_eq in Ef. rewrite (Hlater p Hp Ef). reflexivity.
      + apply andb_false_r. }
  split; [exact Hget|].
  rewrite (handler_supported _ _ Hs Hc), (operationSegment_query _ _ Hq).
  assert (He : existsb validParameter (before ++ (name, value) :: after)%list
               = true).
  { apply existsb_exists. exists (name, value). split; [|exact Hvalid].
    apply in_or_app. right. now left. }
  rewrite He. unfold normalizedOperationsArray at 1. unfold pushed at 1.
  rewrite Hget.
  assert (Ht : truthy (Some (negotiated (get "accept" (headers req)))) = true).
  { unfold truthy.
    pose proof (negotiated_not_empty (get "accept" (headers req))) as Hn.
    apply String.eqb_neq in Hn. now rewrite Hn. }
  rewrite Ht. cbn [app]. eexists. reflexivity.
Qed.

(** C9, as the code has it.  For a path with a supported extension (and
    a request carrying the [crafterSite] cookie) the rewritten URI ends
    with an operation segment that is never empty, and that is
    [original] when no valid operation survives the filtering. *)
Theorem supported_path_without_operation_is_original (req : request)
        (site : string) :
  isTransformSupported (uri req) = true ->
  get "crafterSite" (cookies req) = Some site ->
  rewrittenUri {| event_request := req |}
  = Ok (sitePrefix site ++ "/transformed" ++ uri req ++ "/" ++ operationSegment req)
  /\ operationSegment req <> ""
  /\ (noValidOperation req -> operationSegment req = "original").
Proof.
  intros Hs Hc. split; [now apply handler_supported|].
  split; [apply operationSegment_not_empty|].
  unfold noValidOperation. intros Hnone.
  destruct (querystring req) as [qs|] eqn:Hq.
  - rewrite (operationSegment_query _ _ Hq).
    destruct (existsb validParameter qs) eqn:E; [|reflexivity].
    apply existsb_exists in E. destruct E as [p [Hin Hv]].
    rewrite (Hnone p Hin) in Hv. discriminate.
  - unfold operationSegment. now rewrite Hq.
Qed.

End NormalizerClaims.

Lemma canonical_order_is_deterministic_witness :
  rewrittenUri (Sample.viewer "/a.jpg" [("w", "100"); ("F", "webp")])
  = rewrittenUri (Sample.viewer "/a.jpg" [("f", "webp"); ("W", "100")]).
Proof.
  apply (canonical_order_is_deterministic
           (UrlRewrite.event_request
              (Sample.viewer "/a.jpg" [("w", "100"); ("F", "webp")]))
           (UrlRewrite.event_request
              (Sample.viewer "/a.jpg" [("f", "webp"); ("W", "100")]))
           [("w", "100"); ("F", "webp")] [("f", "webp"); ("W", "100")]).
  - reflexivity.
  - reflexivity.
  - reflexivity.
  - reflexivity.
  - reflexivity.
  - simpl. apply perm_swap.
  - vm_compute. repeat constructor; simpl; intuition discriminate.
Defined.

(** C7, as stated, fails when two parameter names agree up to letter
    case: the later one wins, so the order of the parameters shows in
    the rewritten URI. *)
Lemma case_variant_names_counterexample :
  Permutation [("w", "100"); ("W", "200")] [("W", "200"); ("w", "100")]
  /\ rewrittenUri (Sample.viewer "/a.jpg" [("w", "100"); ("W", "200")])
     = Ok "/site/transformed/a.jpg/w=200"
  /\ rewrittenUri (Sample.viewer "/a.jpg" [("W", "200"); ("w", "100")])
     = Ok "/site/transformed/a.jpg/w=100"
  /\ rewrittenUri (Sample.viewer "/a.jpg" [("w", "100"); ("W", "200")])
     <> rewrittenUri (Sample.viewer "/a.jpg" [("W", "200"); ("w", "100")]).
Proof.
  split; [apply perm_swap|]. split; [reflexivity|]. split; [reflexivity|].
  vm_compute. discriminate.
Qed.

Lemma auto_format_follows_accept_header_witness :
  exists rest : list string,
    rewrittenUri (Sample.viewer "/a.jpg" [("w", "100"); ("F", "AUTO");
                                          ("f", "tiff")])
    = Ok ("/site/transformed/a.jpg/" ++ join "," ("f=avif" :: rest)).
Proof.
  destruct (auto_format_follows_accept_header
              (UrlRewrite.event_request
                 (Sample.viewer "/a.jpg" [("w", "100"); ("F", "AUTO");
                                          ("f", "tiff")]))
              "F" "AUTO" [("w", "100")] [("f", "tiff")] "site")
    as [_ [rest Hrest]].
  - reflexivity.
  - reflexivity.
  - reflexivity.
  - simpl. intros parameter [<-|[]] _. reflexivity.
  - reflexivity.
  - reflexivity.
  - exists rest. exact Hrest.
Defined.

(** C8, as stated, fails in two ways.  On a path without supported
    extension the query string is not read, so [f=auto] resolves to
    nothing; and a later valid parameter whose name is [f] up to letter
    case replaces the negotiated format.  In both requests the [Accept]
    header advertises avif, and the rewritten URI holds no [f=avif]. *)
Lemma auto_format_counterexample :
  negotiated (get "accept"
                (UrlRewrite.headers
                   (UrlRewrite.event_request
                      (Sample.viewer "/images/logo.gif" [("f", "auto")]))))
  = "avif"
  /\ rewrittenUri (Sample.viewer "/images/logo.gif" [("f", "auto")])
     = Ok "/site/images/logo.gif"
  /\ includes "/site/images/logo.gif" "f=avif" = false
  /\ rewrittenUri (Sample.viewer "/a.jpg" [("f", "auto"); ("F", "png")])
     = Ok "/site/transformed/a.jpg/f=png"
  /\ includes "/site/transformed/a.jpg/f=png" "f=avif" = false.
Proof. repeat split; reflexivity. Qed.

Lemma supported_path_without_operation_is_original_witness :
  rewrittenUri (Sample.viewer "/a.jpg" [("w", "0"); ("f", "tiff")])
  = Ok "/site/transformed/a.jpg/original".
Proof.
  destruct (supported_path_without_operation_is_original
              (UrlRewrite.event_request
                 (Sample.viewer "/a.jpg" [("w", "0"); ("f", "tiff")]))
              "site") as [Huri [_ Horiginal]].
  - reflexivity.
  - reflexivity.
  - rewrite Horiginal in Huri; [exact Huri|].
    simpl. intros parameter [<-|[<-|[]]]; reflexivity.
Defined.

(** C9, as stated, fails on a path without supported extension: the
    request has no valid operation and its URI gets no [original]
    suffix. *)
Lemma unsupported_path_counterexample :
  noValidOperation (UrlRewrite.event_request (Sample.viewer "/images/logo.gif" []))
  /\ rewrittenUri (Sample.viewer "/images/logo.gif" [])
     = Ok "/site/images/logo.gif"
  /\ endsWith "/site/images/logo.gif" "/original" = false.
Proof.
  split; [intros parameter []|]. split; reflexivity.
Qed.

(** The older rewriter of lines 747-826 leaves the operation segment
    empty where its comments announce the [/original] suffix, and drops
    the fields it stores under [w], [h] and [q]. *)
Remark legacy_without_query (req : UrlRewrite.request) :
  UrlRewrite.querystring req = None ->
  UrlRewrite.uri (UrlRewriteLegacy.handler {| UrlRewrite.event_request := req |})
  = UrlRewrite.uri req ++ "/".
Proof. intros H. unfold UrlRewriteLegacy.handler. cbn. now rewrite H. Qed.

Remark legacy_width_dropped :
  UrlRewrite.uri (UrlRewriteLegacy.handler (Sample.viewer "/a.jpg" [("w", "100")]))
  = "/a.jpg/".
Proof. reflexivity. Qed.

(* ================================================================== *)
(** ** Further properties of the image-processing handler *)

Section TraceFacts.

Lemma framed_ret {A} (a : A) : framed (ret a).
Proof. intros t. cbn. now rewrite app_nil_r. Qed.

Lemma framed_throw {A} : framed (@throw A).
Proof. intros t. cbn. now rewrite app_nil_r. Qed.

Lemma framed_perform {A} (c : call) (answer : option A) :
  framed (perform c answer).
Proof. intros t. unfold perform. destruct answer; reflexivity. Qed.

Lemma framed_bind {A B} (m : M A) (k : A -> M B) :
  framed m -> (forall a, framed (k a)) -> framed (bind m k).
Proof.
  intros Hm Hk t. unfold bind. rewrite (Hm t).
  destruct (m []) as [[a|] s]; cbn [fst snd].
  - rewrite (Hk a (t ++ s)%list), (Hk a s). cbn [fst snd].
    now rewrite app_assoc.
  - reflexivity.
Qed.

Lemma framed_try {A} (m : M A) : framed m -> framed (try m).
Proof.
  intros Hm t. unfold try. rewrite (Hm t).
  destruct (m []) as [[a|] s]; reflexivity.
Qed.

(** A loop whose body never throws runs the body on every element, in
    order. *)
Lemma forEach_run {A} (l : list A) (f : A -> M unit) :
  (forall x, In x l -> framed (f x) /\ fst (f x []) = Ok tt) ->
  forall t, forEach l f t
            = (Ok tt, (t ++ List.concat (map (fun x => snd (f x [])) l))%list).
Proof.
  induction l as [|x l IH]; intros H t; cbn [forEach map List.concat].
  - cbn. now rewrite app_nil_r.
  - destruct (H x (or_introl eq_refl)) as [Hf Hok].
    unfold bind. rewrite (Hf t), Hok.
    rewrite IH by (intros y Hy; apply H; now right).
    now rewrite app_assoc.
Qed.

Lemma concat_map_flat_map {A B C} (f : B -> list C) (g : A -> list B)
      (l : list A) :
  List.concat (map f (flat_map g l)) = List.concat (map (fun x => List.concat (map f (g x))) l).
Proof.
  induction l as [|x l IH]; cbn; [reflexivity|].
  now rewrite map_app, concat_app, IH.
Qed.

End TraceFacts.

Section TransformImageRuns.

Import ImageProcessing.
Variable W : World.
Variable env : Env.

Ltac run_transformImage :=
  unfold run, transformImage, transformStage, bind, try, getObject,
    metadata, perform, ret;
  try match goal with
      | |- context [s3_getObject W ?b ?k] =>
          destruct (s3_getObject W b k) as [obj|] eqn:Hfetch
      end;
  try match goal with
      | |- context [sharp_metadata W ?b] =>
          destruct (sharp_metadata W b) as [meta|] eqn:Hmeta
      end;
  unfold transformBlock, bind, throw, ret;
  repeat match goal with
         | |- context [if ?c then _ else _] =>
             lazymatch c with
             | negb (truthy (lookup "org" _)) => destruct c eqn:Horg
             | negb (strictEq _ _) && negb (strictEq _ _) => destruct c eqn:Hallow
             end
         end;
  try match goal with
      | |- context [formatting ?o ?c] =>
          destruct (formatting o c) as [formatted contentType] eqn:Hformat
      end;
  unfold toBuffer, perform;
  try match goal with
      | |- context [sharp_toBuffer W ?b ?pl] =>
          destruct (sharp_toBuffer W b pl) as [img|] eqn:Hbuffer
      end;
  try rewrite respondStage_run.

(** The download fails: the answer is the 500 of line 442 and the store
    read is the only call made. *)
Theorem download_failure_is_500 (originalImagePath operationsPrefix : string) :
  s3_getObject W (S3_ORIGINAL_IMAGE_BUCKET env) originalImagePath = None ->
  run (transformImage W env originalImagePath operationsPrefix)
  = (Ok (sendError 500 "Error downloading original image"),
     [GetObject (S3_ORIGINAL_IMAGE_BUCKET env) originalImagePath]).
Proof.
  intros H. unfold run, transformImage, transformStage, bind, try, getObject,
    perform, ret. now rewrite H.
Qed.

(** Reading the metadata is outside every [try] (line 450): when it
    fails, [transformImage] throws instead of answering. *)
Theorem metadata_failure_is_not_caught
        (originalImagePath operationsPrefix : string) (original : s3_object) :
  s3_getObject W (S3_ORIGINAL_IMAGE_BUCKET env) originalImagePath = Some original ->
  sharp_metadata W (Body original) = None ->
  run (transformImage W env originalImagePath operationsPrefix)
  = (Throw,
     [GetObject (S3_ORIGINAL_IMAGE_BUCKET env) originalImagePath;
      Metadata (Body original)]).
Proof.
  intros Hf Hm. unfold run, transformImage, transformStage, bind, try,
    getObject, metadata, perform, ret. now rewrite Hf, Hm.
Qed.

(** With both allow lists configured, a request that resizes always ends
    in the 500 of line 519 and the codec is never asked to produce an
    image: line 466 throws before. *)
Theorem allow_lists_block_every_resize
        (originalImagePath operationsPrefix : string)
        (original : s3_object) (meta : imageMetadata) :
  s3_getObject W (S3_ORIGINAL_IMAGE_BUCKET env) originalImagePath = Some original ->
  sharp_metadata W (Body original) = Some meta ->
  truthy (lookup "org" (operationsJSON operationsPrefix)) = false ->
  ALLOW_TRANSFORM_IMAGE_WIDTHS env <> Some "" ->
  ALLOW_TRANSFORM_IMAGE_HEIGHTS env <> Some "" ->
  run (transformImage W env originalImagePath operationsPrefix)
  = (Ok (sendError 500 "error transforming image"),
     [GetObject (S3_ORIGINAL_IMAGE_BUCKET env) originalImagePath;
      Metadata (Body original)]).
Proof.
  intros Hf Hm Horg Hw Hh.
  apply strictEq_false in Hw, Hh.
  unfold run, transformImage, transformStage, bind, try, getObject, metadata,
    perform, ret. rewrite Hf, Hm.
  unfold transformBlock, bind, throw. now rewrite Horg, Hw, Hh.
Qed.

(** The codec fails: the answer is the 500 of line 519 and nothing is
    written to the store. *)
Theorem transform_failure_writes_nothing
        (originalImagePath operationsPrefix : string) (original : s3_object)
        (meta : imageMetadata) :
  s3_getObject W (S3_ORIGINAL_IMAGE_BUCKET env) originalImagePath = Some original ->
  sharp_metadata W (Body original) = Some meta ->
  (forall pipeline, sharp_toBuffer W (Body original) pipeline = None) ->
  fst (run (transformImage W env originalImagePath operationsPrefix))
  = Ok (sendError 500 "error transforming image")
  /\ forall q, ~ In (PutObject q)
                    (snd (run (transformImage W env originalImagePath
                                              operationsPrefix))).
Proof.
  intros Hf Hm Hb.
  unfold run, transformImage, transformStage, bind, try, getObject, metadata,
    perform, ret. rewrite Hf, Hm.
  unfold transformBlock, bind, throw, ret.
  destruct (negb (truthy (lookup "org" (operationsJSON operationsPrefix))));
    [destruct (negb (strictEq (ALLOW_TRANSFORM_IMAGE_WIDTHS env) (Some ""))
               && negb (strictEq (ALLOW_TRANSFORM_IMAGE_HEIGHTS env) (Some "")))|];
    try (destruct (formatting (operationsJSON operationsPrefix)
                              (ContentType original)) as [formatted ct];
         unfold toBuffer, perform; rewrite Hb);
    (split; [reflexivity|]); cbn; intros q H;
    repeat (destruct H as [H|H]; [discriminate|]); exact H.
Qed.

(** The calls of [transformImage], in every run: the read of the
    original, then its metadata, then the codec, then one write; the
    write happens exactly when the codec produced an image, carries that
    image, and goes to the transformed bucket under the derived key. *)
Theorem transformImage_trace (originalImagePath operationsPrefix : string) :
  let t := snd (run (transformImage W env originalImagePath operationsPrefix)) in
  let fetch := GetObject (S3_ORIGINAL_IMAGE_BUCKET env) originalImagePath in
  t = [fetch]
  \/ (exists original, t = [fetch; Metadata (Body original)])
  \/ (exists original pipeline,
         sharp_toBuffer W (Body original) pipeline = None
         /\ t = [fetch; Metadata (Body original);
                 ToBuffer (Body original) pipeline])
  \/ (exists original pipeline transformedImage contentType,
         sharp_toBuffer W (Body original) pipeline = Some transformedImage
         /\ t = fullTrace env originalImagePath operationsPrefix original
                          pipeline transformedImage contentType).
Proof.
  cbv zeta. run_transformImage; cbn [snd app].
  all: try (left; reflexivity).
  all: try (right; left; eexists; reflexivity).
  all: try (right; right; left; eexists; eexists; split; [eassumption|reflexivity]).
  all: right; right; right; do 4 eexists; split; [eassumption|reflexivity].
Qed.

(** [transformImage] only ever answers 200, 302, 403 or 500. *)
Lemma transformImage_status (originalImagePath operationsPrefix : string)
      (r : response) (t : list call) :
  run (transformImage W env originalImagePath operationsPrefix) = (Ok r, t) ->
  In (statusCode r) [200; 302; 403; 500].
Proof.
  run_transformImage; intros [= <- _]; cbn; auto.
  all: destruct (s3_putObject W _ && _); [cbn; auto|].
  all: destruct (exceeds _ _); cbn; auto.
Qed.

(** [transformImage] only appends its calls to the trace. *)
Lemma transformImage_framed (originalImagePath operationsPrefix : string) :
  framed (transformImage W env originalImagePath operationsPrefix).
Proof.
  unfold transformImage, transformStage, respondStage, transformBlock,
    getObject, metadata, toBuffer, putObject.
  repeat first
    [ apply framed_ret
    | apply framed_throw
    | apply framed_perform
    | apply framed_try
    | apply framed_bind; [|intros ?]
    | match goal with
      | |- framed (match ?x with _ => _ end) => destruct x
      end ].
Qed.

(** [transformImage] throws only when reading the metadata fails. *)
Lemma transformImage_answers (originalImagePath operationsPrefix : string) :
  (forall input, sharp_metadata W input <> None) ->
  exists r, fst (run (transformImage W env originalImagePath operationsPrefix))
            = Ok r.
Proof.
  intros Htotal. run_transformImage; cbn [fst]; try (eexists; reflexivity).
  now apply Htotal in Hmeta.
Qed.

End TransformImageRuns.

Section HandlerRuns.

Import ImageProcessing.
Variable W : World.
Variable env : Env.

(** An authorized request that has no HTTP context, or whose method is
    not GET, is answered 400 and nothing is called (line 415). *)
Theorem unsupported_method_is_400 (ev : event) (hs : object string)
        (secret : string) :
  directRequest ev ->
  ev_headers ev = Some hs ->
  get "x-origin-secret-header" hs = Some secret ->
  secret <> "" ->
  SECRET_KEY env = Some secret ->
  match ev_requestContext ev with
  | Some (Some http) => method http <> "GET"
  | _ => True
  end ->
  run (handler W env ev)
  = (Ok (Some (sendError 400 "Only GET method is supported")), []).
Proof.
  intros Hd Hh Hg Hne Hk Hc.
  pose proof (directRequest_branch ev Hd) as Hb.
  unfold run, handler, bind in *. rewrite Hb, Hh, Hg, Hk. cbn [truthy strictEq].
  apply String.eqb_neq in Hne. rewrite Hne, String.eqb_refl. cbn [negb orb].
  destruct (ev_requestContext ev) as [[http|]|]; try reflexivity.
  apply String.eqb_neq in Hc. now rewrite Hc.
Qed.

(** An object created under [sandbox/], or whose key has none of the
    supported extensions, is left alone: no call is made (lines 387-394). *)
Theorem ingestion_skips_sandbox_and_other_files (ev : event) (r : s3_record)
        (rest : list s3_record) :
  ev_Records ev = Some (r :: rest) ->
  includes (eventName r) "ObjectCreated" = true ->
  startsWith (s3_object_key r) "sandbox/" = true
  \/ (forall extension, In extension SUPPORTED_EXTENSIONS ->
                        endsWith (s3_object_key r) extension = false) ->
  run (handler W env ev) = (Ok None, []).
Proof.
  intros Hr He Hskip. unfold run, handler, bind, isObjectCreated.
  rewrite Hr, He. cbn [ret].
  destruct Hskip as [Hs|Hx].
  - now rewrite Hs.
  - destruct (startsWith (s3_object_key r) "sandbox/"); [reflexivity|].
    cbn [negb].
    assert (E : existsb (endsWith (s3_object_key r)) SUPPORTED_EXTENSIONS = false).
    { destruct (existsb _ SUPPORTED_EXTENSIONS) eqn:E; [|reflexivity].
      apply existsb_exists in E. destruct E as [x [Hin Hx']].
      rewrite (Hx x Hin) in Hx'. discriminate. }
    now rewrite E.
Qed.

(** For any other created object the handler runs [transformImage] once
    for every size with every format, in that order, whatever each run
    answers, as long as reading the metadata does not fail; it returns
    nothing. *)
Theorem ingestion_runs_every_size_with_every_format (ev : event) (r : s3_record)
        (rest : list s3_record) (sizes formats : string) :
  ev_Records ev = Some (r :: rest) ->
  includes (eventName r) "ObjectCreated" = true ->
  startsWith (s3_object_key r) "sandbox/" = false ->
  existsb (endsWith (s3_object_key r)) SUPPORTED_EXTENSIONS = true ->
  AUTO_TRANSFORM_IMAGE_SIZES env = Some sizes ->
  AUTO_TRANSFORM_IMAGE_FORMATS env = Some formats ->
  (forall input, sharp_metadata W input <> None) ->
  run (handler W env ev)
  = (Ok None,
     List.concat
       (map (fun operationsPrefix =>
               snd (run (transformImage W env (s3_object_key r) operationsPrefix)))
            (precomputed (split "|" sizes) (split "|" formats)))).
Proof.
  intros Hr He Hs Hx Hsizes Hformats Htotal.
  assert (Hbody : forall size format,
             framed (bind (transformImage W env (s3_object_key r)
                                          (size ++ ",f=" ++ format))
                          (fun _ => ret tt))
             /\ fst (bind (transformImage W env (s3_object_key r)
                                          (size ++ ",f=" ++ format))
                          (fun _ => ret tt) []) = Ok tt
             /\ snd (bind (transformImage W env (s3_object_key r)
                                          (size ++ ",f=" ++ format))
                          (fun _ => ret tt) [])
                = snd (run (transformImage W env (s3_object_key r)
                                           (size ++ ",f=" ++ format)))).
  { intros size format. split; [|split].
    - apply framed_bind; [apply transformImage_framed|intros; apply framed_ret].
    - unfold bind.
      destruct (transformImage_answers W env (s3_object_key r)
                  (size ++ ",f=" ++ format) Htotal) as [x Hx'].
      unfold run in Hx'.
      destruct (transformImage W env _ _ []) as [[y|] t]; [reflexivity|discriminate].
    - unfold bind, run.
      destruct (transformImage W env _ _ []) as [[y|] t]; reflexivity. }
  assert (Hinner : forall size t,
             forEach (split "|" formats)
                     (fun format =>
                        bind (transformImage W env (s3_object_key r)
                                             (size ++ ",f=" ++ format))
                             (fun _ => ret tt)) t
             = (Ok tt,
                (t ++ List.concat
                        (map (fun operationsPrefix =>
                                snd (run (transformImage W env (s3_object_key r)
                                            operationsPrefix)))
                             (map (fun format => (size ++ ",f=" ++ format)%string)
                                  (split "|" formats))))%list)).
  { intros size t. rewrite forEach_run.
    - f_equal. f_equal. f_equal. rewrite map_map. apply map_ext. intros format.
      apply (Hbody size format).
    - intros format _. split; apply (Hbody size format). }
  assert (Houter : forEach (split "|" sizes)
                     (fun size =>
                        forEach (split "|" formats)
                          (fun format =>
                             bind (transformImage W env (s3_object_key r)
                                                  (size ++ ",f=" ++ format))
                                  (fun _ => ret tt))) []
                   = (Ok tt,
                      List.concat
                        (map (fun operationsPrefix =>
                                snd (run (transformImage W env (s3_object_key r)
                                            operationsPrefix)))
                             (precomputed (split "|" sizes) (split "|" formats))))).
  { rewrite forEach_run.
    - cbn [app]. f_equal. unfold precomputed. rewrite concat_map_flat_map.
      f_equal. apply map_ext. intros size. now rewrite Hinner.
    - intros size _. split.
      + intros t. rewrite !Hinner. reflexivity.
      + now rewrite Hinner. }
  unfold run, handler.
  unfold bind at 1. unfold isObjectCreated. rewrite Hr, He. cbn [ret].
  rewrite Hs, Hx. cbn [negb]. rewrite Hsizes, Hformats. cbn [splitEnv].
  unfold bind at 1. cbn [ret]. unfold bind at 1. cbn [ret].
  unfold bind at 1. now rewrite Houter.
Qed.

(** The handler only ever answers 200, 302, 400, 403 or 500. *)
Theorem handler_status (ev : event) (r : response) (t : list call) :
  run (handler W env ev) = (Ok (Some r), t) ->
  In (statusCode r) [200; 302; 400; 403; 500].
Proof.
  unfold run, handler, bind.
  destruct (isObjectCreated ev []) as [[[|]|] t0]; [| |discriminate].
  - destruct (negb (startsWith _ "sandbox/")); [|discriminate].
    destruct (existsb _ SUPPORTED_EXTENSIONS); [|discriminate].
    destruct (splitEnv (AUTO_TRANSFORM_IMAGE_SIZES env) t0) as [[sizes|] t1];
      [|discriminate].
    destruct (splitEnv (AUTO_TRANSFORM_IMAGE_FORMATS env) t1) as [[formats|] t2];
      [|discriminate].
    destruct (forEach sizes _ t2) as [[[]|] t3]; discriminate.
  - destruct (ev_headers ev) as [hs|]; [|discriminate].
    destruct (negb _ || negb _).
    { intros [= <- _]. cbn. auto. }
    destruct (ev_requestContext ev) as [[http|]|];
      try (intros [= <- _]; cbn; auto 6; fail).
    destruct (negb (String.eqb (method http) "GET")).
    { intros [= <- _]. cbn. auto. }
    destruct (transformImage W env _ _ t0) as [[x|] t1] eqn:E; [|discriminate].
    intros [= <- _].
    pose proof (transformImage_framed W env (requestedImagePath (path http))
                  (requestedOperations (path http)) t0) as Hfr.
    rewrite E in Hfr.
    destruct (transformImage W env (requestedImagePath (path http))
                (requestedOperations (path http)) []) as [x0 t'] eqn:E0.
    cbn [fst snd] in Hfr. inversion Hfr; subst.
    destruct (transformImage_status W env _ _ _ _ E0) as [H|[H|[H|[H|[]]]]];
      rewrite <- H; cbn; auto 6.
Qed.

End HandlerRuns.

(* ================================================================== *)
(** ** Splitting, joining and decimal numbers *)

Section SplitJoin.

Lemma split_not_nil (sep : ascii) (s : string) : split sep s <> [].
Proof.
  destruct s as [|c s]; cbn; [discriminate|].
  destruct (Ascii.eqb c sep); [discriminate|].
  destruct (split sep s); discriminate.
Qed.

Lemma split_cons (sep c : ascii) (s : string) :
  split sep (String c s)
  = if Ascii.eqb c sep then EmptyString :: split sep s
    else match split sep s with
         | h :: t => String c h :: t
         | [] => [String c EmptyString]
         end.
Proof. reflexivity. Qed.

(** Joining the pieces of a split gives the string back. *)
Lemma join_split (sep : ascii) (s : string) :
  join (String sep EmptyString) (split sep s) = s.
Proof.
  unfold join. induction s as [|c s IH]; [reflexivity|].
  rewrite split_cons. destruct (Ascii.eqb c sep) eqn:E.
  - apply Ascii.eqb_eq in E. subst c.
    cbn [String.concat]. pose proof (split_not_nil sep s) as Hn.
    destruct (split sep s) as [|h t]; [contradiction|].
    cbn [append]. now rewrite IH.
  - pose proof (split_not_nil sep s) as Hn.
    destruct (split sep s) as [|h t]; [contradiction|].
    cbn [String.concat] in *. destruct t; cbn [append]; now rewrite <- IH.
Qed.

Lemma noChar_append (c : ascii) (a b : string) :
  noChar c (a ++ b) = noChar c a && noChar c b.
Proof.
  induction a as [|x a IH]; cbn; [reflexivity|].
  now rewrite IH, andb_assoc.
Qed.

Lemma split_noChar (sep : ascii) (s : string) :
  noChar sep s = true -> split sep s = [s].
Proof.
  induction s as [|c s IH]; [reflexivity|].
  cbn [noChar]. intros H. apply andb_prop in H. destruct H as [Hc Hs].
  rewrite split_cons. apply negb_true_iff in Hc. rewrite Hc.
  now rewrite (IH Hs).
Qed.

Lemma split_append (sep : ascii) (a b : string) :
  noChar sep a = true ->
  split sep (a ++ String sep b) = a :: split sep b.
Proof.
  induction a as [|c a IH]; cbn [append noChar].
  - intros _. rewrite split_cons. now rewrite Ascii.eqb_refl.
  - intros H. apply andb_prop in H. destruct H as [Hc Ha].
    rewrite split_cons. apply negb_true_iff in Hc. rewrite Hc.
    now rewrite (IH Ha).
Qed.

Lemma split_append_last (sep : ascii) (a b : string) :
  noChar sep b = true ->
  split sep (a ++ String sep b) = (split sep a ++ [b])%list.
Proof.
  intros Hb. induction a as [|c a IH]; cbn [append].
  - rewrite split_cons, Ascii.eqb_refl. now rewrite (split_noChar _ _ Hb).
  - rewrite !split_cons. destruct (Ascii.eqb c sep).
    + now rewrite IH.
    + rewrite IH. pose proof (split_not_nil sep a) as Hn.
      destruct (split sep a) as [|h t]; [contradiction|reflexivity].
Qed.

(** Splitting a join gives the pieces back when no piece holds the
    separator. *)
Lemma split_join (sep : ascii) (l : list string) :
  l <> [] ->
  (forall s, In s l -> noChar sep s = true) ->
  split sep (join (String sep EmptyString) l) = l.
Proof.
  unfold join. induction l as [|a l IH]; [contradiction|].
  intros _ H. cbn [String.concat]. destruct l as [|b l].
  - apply split_noChar, H. now left.
  - cbn [append]. rewrite split_append by (apply H; now left).
    f_equal. apply IH; [discriminate|]. intros s Hs. apply H. now right.
Qed.

End SplitJoin.

Section Decimal.

Lemma digits_acc (d : Decimal.uint) (p : positive) :
  digits 10 (NilEmpty.string_of_uint d) (Some (Z.pos p))
  = Some (Z.pos (Pos.of_uint_acc d p)).
Proof.
  revert p. induction d; intros p; cbn [NilEmpty.string_of_uint Pos.of_uint_acc];
    [reflexivity| | | | | | | | | |];
    unfold digits; fold digits; cbn [digitValue]; cbv beta;
    match goal with
    | |- context [digitValue ?c] =>
        let v := eval vm_compute in (digitValue c) in
        change (digitValue c) with v
    end; cbv iota beta;
    match goal with
    | |- context [(?k <? 10)] =>
        let v := eval vm_compute in (k <? 10) in
        change (k <? 10) with v
    end; cbv iota;
    match goal with
    | |- digits 10 _ (Some ?e) = _ =>
        match goal with
        | |- _ = Some (Z.pos (Pos.of_uint_acc _ ?q)) =>
            replace e with (Z.pos q) by lia
        end
    end; apply IHd.
Qed.

Lemma digits_zero (d : Decimal.uint) :
  digits 10 (NilEmpty.string_of_uint d) (Some 0)
  = Some (Z.of_N (Pos.of_uint d)).
Proof.
  induction d; cbn [NilEmpty.string_of_uint Pos.of_uint];
    [reflexivity|exact IHd| | | | | | | | |];
    unfold digits; fold digits;
    match goal with
    | |- context [digitValue ?c] =>
        let v := eval vm_compute in (digitValue c) in
        change (digitValue c) with v
    end; cbv iota beta;
    match goal with
    | |- context [(?k <? 10)] =>
        let v := eval vm_compute in (k <? 10) in
        change (k <? 10) with v
    end; cbv iota;
    match goal with
    | |- digits 10 _ (Some ?e) = Some (Z.of_N (N.pos (Pos.of_uint_acc _ ?q))) =>
        replace e with (Z.pos q) by lia
    end; apply digits_acc.
Qed.

Lemma digits_none (d : Decimal.uint) :
  d <> Decimal.Nil ->
  digits 10 (NilEmpty.string_of_uint d) None = Some (Z.of_N (Pos.of_uint d)).
Proof.
  destruct d; intros Hd; [contradiction|..];
    cbn [NilEmpty.string_of_uint Pos.of_uint];
    unfold digits; fold digits;
    match goal with
    | |- context [digitValue ?c] =>
        let v := eval vm_compute in (digitValue c) in
        change (digitValue c) with v
    end; cbv iota beta;
    match goal with
    | |- context [(?k <? 10)] =>
        let v := eval vm_compute in (k <? 10) in
        change (k <? 10) with v
    end; cbv iota;
    [apply digits_zero|..];
    match goal with
    | |- digits 10 _ (Some ?e) = Some (Z.of_N (N.pos (Pos.of_uint_acc _ ?q))) =>
        change e with (Z.pos q)
    end; apply digits_acc.
Qed.

(** [parseInt] reads a string of decimal digits as the number it
    writes. *)
Lemma parseInt_uint (d : Decimal.uint) :
  d <> Decimal.Nil ->
  parseInt (NilEmpty.string_of_uint d) = Num (Z.of_N (Pos.of_uint d)).
Proof.
  intros Hd. pose proof (digits_none d Hd) as Hdig.
  destruct d as [|l|l|l|l|l|l|l|l|l|l]; [contradiction|..].
  1: destruct l.
  all: unfold parseInt; cbn [NilEmpty.string_of_uint trimStart] in *;
    match goal with
    | |- context [isWhiteSpace ?c] => change (isWhiteSpace c) with false
    end; cbv beta iota zeta; rewrite Hdig; now rewrite Z.mul_1_l.
Qed.

(** A number above zero written by [toString] is read back by
    [parseInt]. *)
Lemma parseInt_toString (n : Z) : 0 < n -> parseInt (toString n) = Num n.
Proof.
  destruct n as [|p|p]; try lia. intros _.
  unfold toString, Z.to_int, NilZero.string_of_int, NilZero.string_of_uint.
  pose proof (Unsigned.to_uint_nonnil p) as Hn.
  pose proof (DecimalPos.Unsigned.of_to p) as Hp.
  destruct (Pos.to_uint p) eqn:E; [contradiction|..];
    rewrite parseInt_uint by discriminate; now rewrite Hp.
Qed.

Lemma noChar_uint (c : ascii) (d : Decimal.uint) :
  isDecimalDigit c = false -> noChar c (NilEmpty.string_of_uint d) = true.
Proof.
  intros Hc. induction d; cbn [NilEmpty.string_of_uint noChar];
    [reflexivity|..]; rewrite IHd, andb_true_r; apply negb_true_iff;
    match goal with
    | |- Ascii.eqb ?k c = false =>
        destruct (Ascii.eqb k c) eqn:E; [|reflexivity];
        apply Ascii.eqb_eq in E; subst c; vm_compute in Hc; discriminate
    end.
Qed.

Lemma noChar_toString (c : ascii) (n : Z) :
  0 < n -> isDecimalDigit c = false -> noChar c (toString n) = true.
Proof.
  destruct n as [|p|p]; try lia. intros _ Hc.
  unfold toString, Z.to_int, NilZero.string_of_int, NilZero.string_of_uint.
  pose proof (Unsigned.to_uint_nonnil p) as Hn.
  destruct (Pos.to_uint p) eqn:E; [contradiction|..];
    now apply noChar_uint.
Qed.

End Decimal.

(* ================================================================== *)
(** ** Further properties of the request path and of the edge normalizer *)

Lemma requested_path_parts (originalPath operations : string) :
  noChar "/" operations = true ->
  ImageProcessing.requestedOperations ("/" ++ originalPath ++ "/" ++ operations)
  = operations
  /\ ImageProcessing.requestedImagePath ("/" ++ originalPath ++ "/" ++ operations)
     = replace "transformed/" "" originalPath.
Proof.
  intros Hops.
  assert (Hsplit : split "/" ("/" ++ originalPath ++ "/" ++ operations)
                   = (("" :: split "/" originalPath) ++ [operations])%list).
  { cbn [append]. rewrite split_cons, Ascii.eqb_refl.
    now rewrite (split_append_last "/" originalPath operations Hops). }
  unfold ImageProcessing.requestedOperations, ImageProcessing.requestedImagePath.
  rewrite Hsplit, last_last, removelast_last. cbn [tl].
  now rewrite join_split.
Qed.

(** Lines 416-423: the last segment of the request path is the
    operations prefix, and what lies between the first slash and the
    last one, without its first [transformed/], is the original path. *)
Theorem request_path_is_parsed (originalPath operations : string) :
  noChar "/" operations = true ->
  ImageProcessing.requestedOperations ("/" ++ originalPath ++ "/" ++ operations)
  = operations
  /\ ImageProcessing.requestedImagePath ("/" ++ originalPath ++ "/" ++ operations)
     = replace "transformed/" "" originalPath.
Proof. apply requested_path_parts. Qed.

Lemma request_path_is_parsed_witness :
  ImageProcessing.requestedOperations "/site/transformed/static-assets/a.jpg/f=webp,w=400"
  = "f=webp,w=400"
  /\ ImageProcessing.requestedImagePath
       "/site/transformed/static-assets/a.jpg/f=webp,w=400"
     = "site/static-assets/a.jpg".
Proof.
  exact (request_path_is_parsed "site/transformed/static-assets/a.jpg"
                                "f=webp,w=400" eq_refl).
Defined.

Section RecordedOperations.

Import UrlRewrite.

Lemma positiveValue_positive (value : string) (n : Z) :
  positiveValue value = Some n -> 0 < n /\ parseInt value = Num n.
Proof.
  unfold positiveValue. destruct (truthy (Some value)); [|discriminate].
  destruct (parseInt value) as [|z]; [discriminate|].
  destruct (0 <? z) eqn:E; [|discriminate].
  intros [= <-]. apply Z.ltb_lt in E. now split.
Qed.

(** What the loop can leave under a key. *)
Lemma recorded_value_cases (req : request) (qs : object string) (k v : string) :
  get k (normalizedOperations req qs) = Some v ->
  (k = "f" /\ In v ["jpg"; "jpeg"; "webp"; "avif"; "png"])
  \/ (In k ["w"; "h"; "mw"; "mh"] /\ exists n, 0 < n /\ v = toString n)
  \/ (k = "q" /\ exists n, 1 <= n <= 100 /\ v = toString n).
Proof.
  rewrite get_normalizedOperations.
  destruct (find (decides k) (rev qs)) as [[name value]|] eqn:E; [|discriminate].
  apply find_some in E. destruct E as [_ E]. unfold decides in E.
  apply andb_prop in E. destruct E as [Hvalid Hkey].
  apply String.eqb_eq in Hkey. cbn [option_map]. intros [= <-].
  unfold storedValue, storedOperation. unfold validParameter in Hvalid.
  rewrite Hkey in *. cbn [snd] in *. clear Hkey.
  unfold validOperation in Hvalid.
  destruct (String.eqb k "f") eqn:Ef.
  { left. apply String.eqb_eq in Ef. split; [exact Ef|].
    apply andb_prop in Hvalid. destruct Hvalid as [_ H].
    destruct (String.eqb (toLowerCase value) "auto") eqn:Ea.
    - unfold negotiated.
      destruct (advertises _ "avif"); [cbn; auto 6|].
      destruct (advertises _ "webp"); cbn; auto 6.
    - unfold arrayIncludes, SUPPORTED_FORMATS in H. cbn [existsb] in H.
      rewrite Ea in H. cbn [orb] in H.
      repeat (apply orb_prop in H; destruct H as [H|H];
              [apply String.eqb_eq in H; rewrite H; cbn; auto 6|]).
      discriminate. }
  destruct (positiveValue value) as [n|] eqn:Hn.
  2:{ destruct (String.eqb k "w" || String.eqb k "h" || String.eqb k "mw"
                || String.eqb k "mh" || String.eqb k "q"); discriminate. }
  apply positiveValue_positive in Hn. destruct Hn as [Hpos _].
  destruct (String.eqb k "q") eqn:Eq.
  { right. right. apply String.eqb_eq in Eq. split; [exact Eq|].
    cbn [andb]. destruct (100 <? n) eqn:E100.
    - exists 100. split; [lia|reflexivity].
    - apply Z.ltb_ge in E100. exists n. split; [lia|reflexivity]. }
  right. left. cbn [andb]. split; [|exists n; now split].
  rewrite orb_false_r in Hvalid.
  repeat (apply orb_prop in Hvalid; destruct Hvalid as [Hvalid|Hvalid]);
    try (apply String.eqb_eq in Hvalid; subst k; cbn; auto 6; fail).
  destruct (String.eqb k "w"); [discriminate|].
  discriminate.
Qed.

(** A number the loop records comes from a parameter of the query
    string. *)
Lemma recorded_number_source (req : request) (qs : object string)
      (k v : string) :
  get k (normalizedOperations req qs) = Some v ->
  k <> "f" ->
  exists name value n,
    In (name, value) qs
    /\ positiveValue value = Some n
    /\ v = toString (if String.eqb k "q" && (100 <? n) then 100 else n).
Proof.
  rewrite get_normalizedOperations.
  destruct (find (decides k) (rev qs)) as [[name value]|] eqn:E; [|discriminate].
  apply find_some in E. destruct E as [Hin E]. apply in_rev in Hin.
  unfold decides in E. apply andb_prop in E. destruct E as [Hvalid Hkey].
  apply String.eqb_eq in Hkey. cbn [option_map]. intros [= <-] Hf.
  unfold storedValue, storedOperation. unfold validParameter in Hvalid.
  rewrite Hkey in *. cbn [snd] in *. clear Hkey.
  unfold validOperation in Hvalid.
  apply String.eqb_neq in Hf. rewrite Hf in *.
  destruct (positiveValue value) as [n|] eqn:Hn.
  - exists name, value, n. now repeat split.
  - destruct (String.eqb k "w" || String.eqb k "h" || String.eqb k "mw"
              || String.eqb k "mh" || String.eqb k "q"); discriminate.
Qed.

(** Every operation the normalizer records for a query string whose
    numbers are safe integers is well formed: the format is one of jpg,
    jpeg, webp, avif, png (never [auto]); a width, height, maximal width
    or maximal height is a safe integer above zero in decimal; a quality
    is a number from 1 to 100 in decimal; and [parseInt] reads each
    number back. *)
Theorem recorded_operations_are_well_formed (req : request)
        (qs : object string) (k v : string) :
  safeQuery qs = true ->
  get k (normalizedOperations req qs) = Some v ->
  (k = "f" /\ In v ["jpg"; "jpeg"; "webp"; "avif"; "png"])
  \/ (In k ["w"; "h"; "mw"; "mh"]
      /\ exists n, 0 < n <= MAX_SAFE_INTEGER
                   /\ v = toString n /\ parseInt v = Num n)
  \/ (k = "q"
      /\ exists n, 1 <= n <= 100 /\ v = toString n /\ parseInt v = Num n).
Proof.
  intros Hsafe H.
  assert (Hbound : forall name value n,
             In (name, value) qs -> positiveValue value = Some n ->
             0 < n <= MAX_SAFE_INTEGER).
  { intros name value n Hin Hn. apply positiveValue_positive in Hn.
    destruct Hn as [Hpos Hparse]. split; [exact Hpos|].
    unfold safeQuery in Hsafe. rewrite forallb_forall in Hsafe.
    specialize (Hsafe _ Hin). cbn [snd] in Hsafe. rewrite Hparse in Hsafe.
    now apply Z.leb_le. }
  destruct (recorded_value_cases _ _ _ _ H) as [Hf|[[Hk _]|[Hk _]]].
  - now left.
  - right. left. split; [exact Hk|].
    assert (Hf : k <> "f") by (intros ->; cbn in Hk; intuition discriminate).
    destruct (recorded_number_source _ _ _ _ H Hf)
      as [name [value [n [Hin [Hn ->]]]]].
    assert (Hq : String.eqb k "q" = false).
    { apply String.eqb_neq. intros ->. cbn in Hk. intuition discriminate. }
    rewrite Hq. cbn [andb]. destruct (Hbound _ _ _ Hin Hn) as [Hpos Hmax].
    exists n. split; [split; assumption|]. split; [reflexivity|].
    now apply parseInt_toString.
  - right. right. split; [exact Hk|]. subst k.
    destruct (recorded_number_source _ _ _ _ H ltac:(discriminate))
      as [name [value [n [Hin [Hn ->]]]]].
    destruct (Hbound _ _ _ Hin Hn) as [Hpos _].
    cbn [String.eqb Ascii.eqb Bool.eqb andb].
    change (String.eqb "q" "q") with true. cbn [andb].
    destruct (100 <? n) eqn:E100.
    + exists 100. split; [lia|]. split; [reflexivity|].
      apply parseInt_toString. lia.
    + apply Z.ltb_ge in E100. exists n. split; [lia|]. split; [reflexivity|].
      apply parseInt_toString. lia.
Qed.

(** Line 110: a request without the [crafterSite] cookie makes the
    function throw, whatever its path and query string. *)
Theorem missing_site_cookie_throws (req : request) :
  get "crafterSite" (cookies req) = None ->
  handler {| event_request := req |} = Throw.
Proof.
  intros Hc. unfold handler. cbn [event_request].
  destruct (isTransformSupported (uri req)); cbn [cookies]; now rewrite Hc.
Qed.

(** A request for a path without supported extension is passed on with
    its query string, headers and cookies as they are; only the site
    folder is put in front of the URI. *)
Theorem unsupported_path_passes_through (req : request) (site : string) :
  isTransformSupported (uri req) = false ->
  get "crafterSite" (cookies req) = Some site ->
  handler {| event_request := req |}
  = Ok {| uri := sitePrefix site ++ uri req;
          querystring := querystring req;
          headers := headers req;
          cookies := cookies req |}.
Proof.
  intros Hs Hc. unfold handler, sitePrefix. cbn [event_request].
  rewrite Hs, Hc. unfold truthy.
  destruct (String.eqb site ""); cbn [negb]; [|reflexivity].
  now destruct req.
Qed.

End RecordedOperations.

Section ReadBack.

Import UrlRewrite.

Lemma recorded_value_noChar (req : request) (qs : object string)
      (c : ascii) (k v : string) :
  In c ["/"; ","; "="]%char ->
  get k (normalizedOperations req qs) = Some v ->
  noChar c v = true.
Proof.
  intros Hc H.
  assert (Hd : isDecimalDigit c = false).
  { destruct Hc as [<-|[<-|[<-|[]]]]; reflexivity. }
  destruct (recorded_value_cases _ _ _ _ H)
    as [[_ Hf]|[[_ [n [Hn ->]]]|[_ [n [Hn ->]]]]].
  - cbn in Hf. destruct Hc as [<-|[<-|[<-|[]]]];
      repeat (destruct Hf as [<-|Hf]; [reflexivity|]); contradiction.
  - now apply noChar_toString.
  - apply noChar_toString; [lia|exact Hd].
Qed.

Lemma recorded_value_not_empty (req : request) (qs : object string)
      (k v : string) :
  get k (normalizedOperations req qs) = Some v ->
  In k CANONICAL_ORDER /\ v <> "".
Proof.
  intros H.
  destruct (recorded_value_cases _ _ _ _ H)
    as [[-> Hf]|[[Hk [n [Hn ->]]]|[-> [n [Hn ->]]]]].
  - split; [cbn; auto|]. cbn in Hf.
    repeat (destruct Hf as [<-|Hf]; [discriminate|]). contradiction.
  - split; [|apply toString_not_empty]. cbn in Hk |- *.
    repeat (destruct Hk as [<-|Hk]; [auto 7|]). contradiction.
  - split; [cbn; auto|apply toString_not_empty].
Qed.

Lemma canonical_key_noChar (c : ascii) (k : string) :
  In c ["/"; ","; "="]%char -> In k CANONICAL_ORDER -> noChar c k = true.
Proof.
  intros Hc Hk. cbn in Hk.
  destruct Hc as [<-|[<-|[<-|[]]]];
    repeat (destruct Hk as [<-|Hk]; [reflexivity|]); contradiction.
Qed.

(** [Object.fromEntries] over pairs [[k, value k]]. *)
Lemma get_fromEntries_pairs (value : string -> string) (ks : list string)
      (o : object (option string)) (k : string) :
  get k (fold_left (fun o a => set (fst (entry a)) (snd (entry a)) o)
                   (map (fun k => [k; value k]) ks) o)
  = if existsb (String.eqb k) ks then Some (Some (value k)) else get k o.
Proof.
  revert o. induction ks as [|k0 ks IH]; intros o; cbn [map fold_left existsb];
    [reflexivity|].
  rewrite IH. cbn [entry fst snd]. rewrite get_set.
  destruct (String.eqb k k0) eqn:E.
  - apply String.eqb_eq in E. subst k0. cbn [orb].
    destruct (existsb (String.eqb k) ks); reflexivity.
  - reflexivity.
Qed.

(** The operation segment, parsed the way the handler parses its
    operations prefix (line 452), gives back exactly the operations the
    normalizer recorded: every recorded key with its value, and nothing
    else. *)
Theorem segment_is_read_back (req : request) (k : string) :
  lookup k (ImageProcessing.operationsJSON (operationSegment req))
  = match querystring req with
    | Some qs => get k (normalizedOperations req qs)
    | None => None
    end.
Proof.
  assert (Horiginal : lookup k (ImageProcessing.operationsJSON "original") = None).
  { change (ImageProcessing.operationsJSON "original") with [("original", @None string)].
    unfold lookup. cbn [get]. destruct (String.eqb k "original"); reflexivity. }
  destruct (querystring req) as [qs|] eqn:Hq.
  2:{ unfold operationSegment. now rewrite Hq. }
  rewrite (operationSegment_query _ _ Hq).
  destruct (existsb validParameter qs) eqn:Hv.
  2:{ rewrite Horiginal.
      assert (He : normalizedOperations req qs = [])
        by (apply fold_operation_empty; auto).
      now rewrite He. }
  set (ops := normalizedOperations req qs).
  set (value := fun k => match get k ops with Some v => v | None => "" end).
  set (ks := filter (fun k => truthy (get k ops)) CANONICAL_ORDER).
  assert (Hks : forall x, In x ks ->
                          In x CANONICAL_ORDER /\ get x ops = Some (value x)).
  { intros x Hx. apply filter_In in Hx. destruct Hx as [Ho Ht].
    split; [exact Ho|]. unfold value.
    destruct (get x ops); [reflexivity|discriminate]. }
  assert (Hne : ks <> []).
  { apply existsb_exists in Hv. destruct Hv as [p [Hin Hp]].
    destruct (valid_parameter_recorded req qs p Hin Hp) as [v [Hget Hv]].
    assert (In (lowerKey p) ks).
    { apply filter_In. split; [apply (validOperation_key _ _ Hp)|].
      fold ops in Hget. rewrite Hget. unfold truthy.
      apply String.eqb_neq in Hv. now rewrite Hv. }
    intros E. now rewrite E in H. }
  rewrite normalizedOperationsArray_canonical.
  change (canonicalFields ops) with (map (fun k => k ++ "=" ++ value k) ks).
  unfold ImageProcessing.operationsJSON.
  rewrite split_join.
  2:{ destruct ks; [contradiction|discriminate]. }
  2:{ intros s Hs. apply in_map_iff in Hs. destruct Hs as [x [<- Hx]].
      destruct (Hks x Hx) as [Ho Hg].
      rewrite !noChar_append, (canonical_key_noChar "," x),
        (recorded_value_noChar req qs "," x (value x)); auto; cbn; auto. }
  rewrite map_map.
  rewrite (map_ext_in _ (fun k => [k; value k])).
  2:{ intros x Hx. destruct (Hks x Hx) as [Ho Hg].
      change (x ++ "=" ++ value x) with (x ++ String "=" (value x)).
      rewrite split_append by (apply canonical_key_noChar; cbn; auto).
      rewrite split_noChar; [reflexivity|].
      apply (recorded_value_noChar req qs "=" x); cbn; auto. }
  unfold lookup, fromEntries. rewrite get_fromEntries_pairs. cbn [get].
  destruct (existsb (String.eqb k) ks) eqn:Hk.
  - apply existsb_exists in Hk. destruct Hk as [x [Hx Hkx]].
    apply String.eqb_eq in Hkx. subst x.
    destruct (Hks k Hx) as [_ Hg]. now rewrite Hg.
  - destruct (get k ops) as [v|] eqn:Hg; [|reflexivity].
    fold ops in Hg.
    destruct (recorded_value_not_empty req qs k v Hg) as [Ho Hv'].
    assert (In k ks).
    { apply filter_In. split; [exact Ho|]. rewrite Hg. unfold truthy.
      apply String.eqb_neq in Hv'. now rewrite Hv'. }
    assert (existsb (String.eqb k) ks = true).
    { apply existsb_exists. exists k. split; [assumption|apply String.eqb_refl]. }
    congruence.
Qed.

(** The operation segment holds no slash. *)
Lemma operationSegment_no_slash (req : request) :
  noChar "/" (operationSegment req) = true.
Proof.
  destruct (querystring req) as [qs|] eqn:Hq.
  2:{ unfold operationSegment. now rewrite Hq. }
  rewrite (operationSegment_query _ _ Hq).
  destruct (existsb validParameter qs); [|reflexivity].
  rewrite normalizedOperationsArray_canonical. unfold canonicalFields.
  set (ops := normalizedOperations req qs).
  assert (H : forall l, (forall x, In x l -> In x CANONICAL_ORDER
                                              /\ truthy (get x ops) = true) ->
                        noChar "/"
                          (join ","
                             (map (fun k => k ++ "=" ++ match get k ops with
                                                        | Some v => v
                                                        | None => ""
                                                        end) l)) = true).
  { unfold join. induction l as [|x l IH]; intros Hl; [reflexivity|].
    destruct (Hl x (or_introl eq_refl)) as [Ho Ht].
    assert (Hx : noChar "/" (x ++ "=" ++ match get x ops with
                                          | Some v => v
                                          | None => ""
                                          end) = true).
    { rewrite !noChar_append, (canonical_key_noChar "/" x); auto; [|cbn; auto].
      destruct (get x ops) as [v|] eqn:Hg; [|discriminate].
      rewrite (recorded_value_noChar req qs "/" x v); auto. cbn; auto. }
    cbn [map String.concat].
    destruct (map _ l) eqn:El; [exact Hx|].
    rewrite noChar_append, Hx. cbn [andb append noChar].
    change (Ascii.eqb "," "/") with false. cbn [negb andb].
    apply IH. intros y Hy. apply Hl. now right. }
  apply H. intros x Hx. apply filter_In in Hx. exact Hx.
Qed.

Lemma take_length_append (a b : string) : take (String.length a) (a ++ b) = a.
Proof.
  induction a as [|x a IH]; cbn; [now destruct b|]. now rewrite IH.
Qed.

Lemma drop_length_append (a b : string) : drop (String.length a) (a ++ b) = b.
Proof. induction a as [|x a IH]; cbn; [reflexivity|]. apply IH. Qed.

(** Replacing a pattern whose first occurrence is known. *)
Lemma replace_at (a pat rep b : string) :
  indexOf pat (a ++ pat ++ b) = Some (String.length a) ->
  replace pat rep (a ++ pat ++ b) = a ++ rep ++ b.
Proof.
  intros H. rewrite (replace_found _ _ _ _ H), take_length_append.
  now rewrite <- drop_drop, !drop_length_append.
Qed.

(** From the edge to the handler: the URI the normalizer produces for a
    supported path is parsed by lines 416-423 into the operation segment
    as operations prefix and, when [transformed/] first occurs right
    after the site folder, into the site folder followed by the viewer's
    path as original path. *)
Theorem rewritten_uri_is_parsed_back (req : request) (site rest u : string) :
  isTransformSupported (uri req) = true ->
  get "crafterSite" (cookies req) = Some site ->
  site <> "" ->
  uri req = "/" ++ rest ->
  indexOf "transformed/" ((site ++ "/") ++ "transformed/" ++ rest)
  = Some (String.length (site ++ "/")) ->
  rewrittenUri {| event_request := req |} = Ok u ->
  ImageProcessing.requestedOperations u = operationSegment req
  /\ ImageProcessing.requestedImagePath u = site ++ uri req.
Proof.
  intros Hs Hc Hne Hu Hidx.
  rewrite (handler_supported _ _ Hs Hc). unfold sitePrefix.
  apply String.eqb_neq in Hne. rewrite Hne, Hu. intros Hok.
  assert (E : u = "/" ++ ((site ++ "/") ++ "transformed/" ++ rest) ++ "/"
                    ++ operationSegment req).
  { injection Hok as <-. cbn [append]. f_equal.
    rewrite !append_assoc. reflexivity. }
  rewrite E. clear Hok E.
  destruct (requested_path_parts ((site ++ "/") ++ "transformed/" ++ rest)
              (operationSegment req) (operationSegment_no_slash req))
    as [Hops Hpath].
  split; [exact Hops|]. rewrite Hpath, (replace_at _ _ _ _ Hidx).
  now rewrite append_assoc.
Qed.

Lemma rewritten_uri_is_parsed_back_witness :
  ImageProcessing.requestedOperations "/site/transformed/static-assets/a.jpg/f=avif,w=100"
  = "f=avif,w=100"
  /\ ImageProcessing.requestedImagePath
       "/site/transformed/static-assets/a.jpg/f=avif,w=100"
     = "site/static-assets/a.jpg".
Proof.
  exact (rewritten_uri_is_parsed_back
           (event_request (Sample.viewer "/static-assets/a.jpg"
                                         [("w", "100"); ("F", "AUTO")]))
           "site" "static-assets/a.jpg"
           "/site/transformed/static-assets/a.jpg/f=avif,w=100"
           eq_refl eq_refl ltac:(discriminate) eq_refl eq_refl eq_refl).
Defined.

End ReadBack.

(* ================================================================== *)
(** ** The other variants *)

(** The handler of lines 635-741 never redirects: its answers are 200,
    403 and 500 only, because building the redirect throws (line 721)
    and the [catch] falls through to the size test of line 730. *)
Theorem esm_never_redirects (W : World) (env : Env)
        (originalImagePath operationsPrefix : string)
        (r : response) (t : list call) :
  run (ImageProcessingEsm.transformImage W env originalImagePath operationsPrefix)
  = (Ok r, t) ->
  In (statusCode r) [200; 403; 500].
Proof.
  unfold run, ImageProcessingEsm.transformImage, bind, try, getObject,
    metadata, perform, ret.
  destruct (s3_getObject W _ _) as [obj|]; [|intros [= <- _]; cbn; auto].
  destruct (sharp_metadata W _) as [meta|]; [|discriminate].
  unfold ImageProcessingEsm.transformBlock, bind, throw, ret.
  destruct (negb (truthy (lookup "org" _)));
    [destruct (negb (strictEq _ _) && negb (strictEq _ _));
     [intros [= <- _]; cbn; auto|]|];
    destruct (ImageProcessing.formatting _ _) as [formatted ct];
    unfold toBuffer, perform;
    (destruct (sharp_toBuffer W _ _) as [img|]; [|intros [= <- _]; cbn; auto]);
    unfold putObject, perform;
    destruct (s3_putObject W _);
    destruct (ImageProcessing.exceeds _ _);
    intros [= <- _]; cbn; auto.
Qed.

Lemma esm_never_redirects_witness :
  exists r t,
    run (ImageProcessingEsm.transformImage (Sample.world true) (Sample.env "1")
           "sample/1.jpg" "w=400") = (Ok r, t)
    /\ In (statusCode r) [200; 403; 500].
Proof.
  destruct (run (ImageProcessingEsm.transformImage
                   (Sample.world true) (Sample.env "1") "sample/1.jpg" "w=400"))
    as [[r|] t] eqn:E.
  - exists r, t. split; [reflexivity|].
    exact (esm_never_redirects _ _ _ _ _ _ E).
  - vm_compute in E. discriminate E.
Defined.

(** [transformImage] of lines 59-172 and 238-338 never reaches the
    codec or writes to the store: it reads the original, then answers
    500 when the read failed and throws otherwise. *)
Theorem instrumented_transformImage_never_transforms (W : World) (env : Env)
        (originalImagePath operationsPrefix : string) :
  snd (run (ImageProcessingInstrumented.transformImage
              W env originalImagePath operationsPrefix))
  = [GetObject (originalImageBucketName env) originalImagePath]
  /\ fst (run (ImageProcessingInstrumented.transformImage
                 W env originalImagePath operationsPrefix))
     = match s3_getObject W (originalImageBucketName env) originalImagePath with
       | Some _ => Throw
       | None => Ok (ImageProcessingInstrumented.sendError
                       500 "error downloading original image")
       end.
Proof.
  unfold run, ImageProcessingInstrumented.transformImage, bind, try,
    getObject, perform.
  destruct (s3_getObject W _ _); split; reflexivity.
Qed.

Section Legacy.

Import UrlRewriteLegacy.

Lemma legacy_operation_keys (req : UrlRewrite.request) (qs : object string)
      (ops : object string) :
  (forall k v, get k ops = Some v ->
               (k = "format" /\ In v legacyFormats) \/ In k ["w"; "h"; "q"]) ->
  forall k v, get k (fold_left (operation req) qs ops) = Some v ->
              (k = "format" /\ In v legacyFormats) \/ In k ["w"; "h"; "q"].
Proof.
  revert ops. induction qs as [|[name value] qs IH]; intros ops Hops;
    cbn [fold_left]; [exact Hops|].
  apply IH. intros k v. unfold operation.
  destruct (String.eqb (toLowerCase name) "f").
  { destruct (truthy (Some value)
              && UrlRewrite.arrayIncludes SUPPORTED_FORMATS (toLowerCase value))
      eqn:Hv; [|apply Hops].
    rewrite get_set. destruct (String.eqb k "format") eqn:E; [|apply Hops].
    apply String.eqb_eq in E. intros [= <-]. left. split; [exact E|].
    apply andb_prop in Hv. destruct Hv as [_ Hv].
    destruct (String.eqb (toLowerCase value) "auto") eqn:Ea.
    - unfold UrlRewrite.autoFormat.
      destruct (get "accept" _) as [accept|]; [|cbn; auto].
      destruct (includes accept "avif"); [cbn; auto|].
      destruct (includes accept "webp"); cbn; auto.
    - unfold UrlRewrite.arrayIncludes, SUPPORTED_FORMATS in Hv.
      cbn [existsb] in Hv. rewrite Ea in Hv. cbn [orb] in Hv.
      repeat (apply orb_prop in Hv; destruct Hv as [Hv|Hv];
              [apply String.eqb_eq in Hv; rewrite Hv; cbn; auto 7|]).
      discriminate. }
  destruct (String.eqb (toLowerCase name) "w").
  { destruct (UrlRewrite.positiveValue value); [|apply Hops].
    rewrite get_set. destruct (String.eqb k "w") eqn:E; [|apply Hops].
    apply String.eqb_eq in E. intros _. right. subst. cbn. auto. }
  destruct (String.eqb (toLowerCase name) "h").
  { destruct (UrlRewrite.positiveValue value); [|apply Hops].
    rewrite get_set. destruct (String.eqb k "h") eqn:E; [|apply Hops].
    apply String.eqb_eq in E. intros _. right. subst. cbn. auto. }
  destruct (String.eqb (toLowerCase name) "q").
  { destruct (UrlRewrite.positiveValue value); [|apply Hops].
    rewrite get_set. destruct (String.eqb k "q") eqn:E; [|apply Hops].
    apply String.eqb_eq in E. intros _. right. subst. cbn. auto. }
  apply Hops.
Qed.

(** The rewriter of lines 750-826 emits at most the format: a width, a
    height or a quality never reaches the URI, which ends with an empty
    segment unless a format is given. *)
Theorem legacy_emits_only_the_format (req : UrlRewrite.request) :
  let u := UrlRewrite.uri (handler {| UrlRewrite.event_request := req |}) in
  u = UrlRewrite.uri req ++ "/"
  \/ exists format, In format legacyFormats
                    /\ u = UrlRewrite.uri req ++ "/f=" ++ format.
Proof.
  cbv zeta. unfold handler. cbn [UrlRewrite.event_request UrlRewrite.uri].
  destruct (UrlRewrite.querystring req) as [qs|]; [|now left].
  set (ops := fold_left (operation req) qs []).
  assert (Hkeys : forall k v, get k ops = Some v ->
                              (k = "format" /\ In v legacyFormats)
                              \/ In k ["w"; "h"; "q"]).
  { apply legacy_operation_keys. intros k v H. discriminate H. }
  destruct (0 <? List.length (keys ops))%nat; [|now left].
  assert (Hnone : forall field, In field ["quality"; "width"; "height"] ->
                                get field ops = None).
  { intros field Hf. destruct (get field ops) as [v|] eqn:E; [|reflexivity].
    destruct (Hkeys _ _ E) as [[-> _]|Hk].
    - cbn in Hf. intuition discriminate.
    - cbn in Hf, Hk. intuition (subst; discriminate). }
  unfold normalizedOperationsArray, pushed.
  rewrite (Hnone "quality"), (Hnone "width"), (Hnone "height")
    by (cbn; auto).
  destruct (get "format" ops) as [v|] eqn:E; [|now left].
  destruct (Hkeys _ _ E) as [[_ Hv]|Hk].
  2:{ cbn in Hk. intuition discriminate. }
  assert (Ht : truthy (Some v) = true).
  { cbn in Hv. repeat (destruct Hv as [<-|Hv]; [reflexivity|]). contradiction. }
  rewrite Ht. right. exists v. split; [exact Hv|]. reflexivity.
Qed.

End Legacy.

(** The handler of lines 431-564 asks for a resize within the original
    on both axes, and with the fit [inside] exactly when a maximal width
    or a maximal height is given. *)
Theorem resize_request_is_within_original (meta : imageMetadata)
        (ops : object (option string)) :
  (forall n, resize_width (ImageProcessing.resizing meta ops) = Some n ->
             exists x, n = Num x /\ x <= width meta)
  /\ (forall n, resize_height (ImageProcessing.resizing meta ops) = Some n ->
                exists x, n = Num x /\ x <= height meta)
  /\ resize_fit (ImageProcessing.resizing meta ops)
     = if truthy (lookup "mw" ops) || truthy (lookup "mh" ops)
       then Some "inside" else None.
Proof.
  destruct (resizing_never_upscales meta ops) as [Hw Hh].
  split; [exact Hw|]. split; [exact Hh|].
  unfold ImageProcessing.resizing.
  destruct (truthy (lookup "w" ops)), (truthy (lookup "h" ops)),
    (truthy (lookup "mw" ops)), (truthy (lookup "mh" ops)); reflexivity.
Qed.

(* ================================================================== *)
(** ** The further properties on sample runs *)

Lemma download_failure_is_500_witness :
  run (ImageProcessing.transformImage Scenario.noOriginal (Sample.env "4700000")
         "sample/missing.jpg" "w=400")
  = (Ok (ImageProcessing.sendError 500 "Error downloading original image"),
     [GetObject (Some "images-s3-original") "sample/missing.jpg"]).
Proof.
  exact (download_failure_is_500 Scenario.noOriginal (Sample.env "4700000")
           "sample/missing.jpg" "w=400" eq_refl).
Defined.

Lemma metadata_failure_is_not_caught_witness :
  run (ImageProcessing.transformImage Scenario.unreadable (Sample.env "4700000")
         "sample/1.jpg" "w=400")
  = (Throw,
     [GetObject (Some "images-s3-original") "sample/1.jpg";
      Metadata Sample.original]).
Proof.
  exact (metadata_failure_is_not_caught Scenario.unreadable (Sample.env "4700000")
           "sample/1.jpg" "w=400"
           {| Body := Sample.original; ContentType := Some "image/jpeg" |}
           eq_refl eq_refl).
Defined.

Lemma allow_lists_block_every_resize_witness :
  run (ImageProcessing.transformImage (Sample.world true)
         (Scenario.envWith "org" "org" "360|480" "270|480")
         "sample/1.jpg" "w=360,h=270")
  = (Ok (ImageProcessing.sendError 500 "error transforming image"),
     [GetObject (Some "images-s3-original") "sample/1.jpg";
      Metadata Sample.original]).
Proof.
  apply (allow_lists_block_every_resize (Sample.world true)
           (Scenario.envWith "org" "org" "360|480" "270|480")
           "sample/1.jpg" "w=360,h=270"
           {| Body := Sample.original; ContentType := Some "image/jpeg" |}
           {| width := 800; height := 600; orientation := None |}).
  - reflexivity.
  - reflexivity.
  - reflexivity.
  - discriminate.
  - discriminate.
Defined.

Lemma transform_failure_writes_nothing_witness :
  fst (run (ImageProcessing.transformImage Scenario.codecFails
              (Sample.env "4700000") "sample/1.jpg" "w=400"))
  = Ok (ImageProcessing.sendError 500 "error transforming image").
Proof.
  apply (transform_failure_writes_nothing Scenario.codecFails
           (Sample.env "4700000") "sample/1.jpg" "w=400"
           {| Body := Sample.original; ContentType := Some "image/jpeg" |}
           {| width := 800; height := 600; orientation := None |}).
  - reflexivity.
  - reflexivity.
  - reflexivity.
Defined.

Lemma unsupported_method_is_400_witness :
  run (ImageProcessing.handler (Sample.world true) (Sample.env "4700000")
         (Scenario.request "POST" "/sample/1.jpg/w=400"))
  = (Ok (Some (ImageProcessing.sendError 400 "Only GET method is supported")), []).
Proof.
  apply (unsupported_method_is_400 (Sample.world true) (Sample.env "4700000")
           (Scenario.request "POST" "/sample/1.jpg/w=400")
           [("x-origin-secret-header", "0123456789abcdef")] "0123456789abcdef").
  - exact I.
  - reflexivity.
  - reflexivity.
  - discriminate.
  - reflexivity.
  - simpl. discriminate.
Defined.

Lemma ingestion_skips_sandbox_and_other_files_witness :
  run (ImageProcessing.handler (Sample.world true) (Sample.env "4700000")
         (Scenario.created "sandbox/site/static-assets/a.jpg"))
  = (Ok None, []).
Proof.
  apply (ingestion_skips_sandbox_and_other_files
           (Sample.world true) (Sample.env "4700000")
           (Scenario.created "sandbox/site/static-assets/a.jpg")
           {| eventName := "ObjectCreated:Put";
              s3_object_key := "sandbox/site/static-assets/a.jpg" |} []).
  - reflexivity.
  - reflexivity.
  - left. reflexivity.
Defined.

Lemma ingestion_runs_every_size_with_every_format_witness :
  exists t : list call,
    run (ImageProcessing.handler (Sample.world true)
           (Scenario.envWith "org|w=360" "org|webp" "" "")
           (Scenario.created "site/static-assets/a.jpg"))
    = (Ok None, t)
    /\ List.length t = 16%nat.
Proof.
  eexists. split.
  - apply (ingestion_runs_every_size_with_every_format
             (Sample.world true) (Scenario.envWith "org|w=360" "org|webp" "" "")
             (Scenario.created "site/static-assets/a.jpg")
             {| eventName := "ObjectCreated:Put";
                s3_object_key := "site/static-assets/a.jpg" |} []
             "org|w=360" "org|webp").
    + reflexivity.
    + reflexivity.
    + reflexivity.
    + reflexivity.
    + reflexivity.
    + reflexivity.
    + intros input. discriminate.
  - reflexivity.
Defined.

Lemma handler_status_witness :
  exists r t,
    run (ImageProcessing.handler (Sample.world true) (Sample.env "4700000")
           (Scenario.request "GET" "/sample/1.jpg/w=400")) = (Ok (Some r), t)
    /\ In (statusCode r) [200; 302; 400; 403; 500].
Proof.
  destruct (run (ImageProcessing.handler (Sample.world true) (Sample.env "4700000")
                   (Scenario.request "GET" "/sample/1.jpg/w=400")))
    as [[[r|]|] t] eqn:E.
  - exists r, t. split; [reflexivity|].
    exact (handler_status _ _ _ _ _ E).
  - vm_compute in E. discriminate E.
  - vm_compute in E. discriminate E.
Defined.

Lemma recorded_operations_are_well_formed_witness :
  exists n, 0 < n <= MAX_SAFE_INTEGER
            /\ "400" = toString n /\ parseInt "400" = Num n.
Proof.
  destruct (recorded_operations_are_well_formed
              (UrlRewrite.event_request
                 (Sample.viewer "/a.jpg" [("W", "0400"); ("q", "500")]))
              [("W", "0400"); ("q", "500")] "w" "400" eq_refl eq_refl)
    as [[H _]|[[_ H]|[H _]]].
  - discriminate H.
  - exact H.
  - discriminate H.
Defined.

Lemma missing_site_cookie_throws_witness :
  UrlRewrite.handler
    {| UrlRewrite.event_request :=
         {| UrlRewrite.uri := "/static-assets/a.jpg";
            UrlRewrite.querystring := Some [("w", "100")];
            UrlRewrite.headers := [];
            UrlRewrite.cookies := [] |} |}
  = Throw.
Proof.
  exact (missing_site_cookie_throws
           {| UrlRewrite.uri := "/static-assets/a.jpg";
              UrlRewrite.querystring := Some [("w", "100")];
              UrlRewrite.headers := [];
              UrlRewrite.cookies := [] |} eq_refl).
Defined.

Lemma unsupported_path_passes_through_witness :
  UrlRewrite.handler (Sample.viewer "/static-assets/site.css" [("w", "100")])
  = Ok {| UrlRewrite.uri := "/site/static-assets/site.css";
          UrlRewrite.querystring := Some [("w", "100")];
          UrlRewrite.headers := [("accept", "image/avif,image/webp,*/*")];
          UrlRewrite.cookies := [("crafterSite", "site")] |}.
Proof.
  exact (unsupported_path_passes_through
           (UrlRewrite.event_request
              (Sample.viewer "/static-assets/site.css" [("w", "100")]))
           "site" eq_refl eq_refl).
Defined.

Section MoreHandlerRuns.

Import ImageProcessing.
Variable W : World.
Variable env : Env.

(** An authorized GET request is answered by [transformImage] on the
    original path and the operations read from the request path: the
    same response, the same calls, and an exception if it throws. *)
Theorem authorized_get_is_transformed (ev : event) (hs : object string)
        (http : http_context) (secret : string) :
  directRequest ev ->
  ev_headers ev = Some hs ->
  get "x-origin-secret-header" hs = Some secret ->
  secret <> "" ->
  SECRET_KEY env = Some secret ->
  ev_requestContext ev = Some (Some http) ->
  method http = "GET" ->
  fst (run (handler W env ev))
  = match fst (run (transformImage W env (requestedImagePath (path http))
                                   (requestedOperations (path http)))) with
    | Ok r => Ok (Some r)
    | Throw => Throw
    end
  /\ snd (run (handler W env ev))
     = snd (run (transformImage W env (requestedImagePath (path http))
                                (requestedOperations (path http)))).
Proof.
  intros Hd Hh Hg Hne Hk Hc Hm.
  rewrite (handler_direct W env ev hs http secret
             (directRequest_branch ev Hd) Hh Hg Hne Hk Hc Hm).
  destruct (run (transformImage W env _ _)) as [[r|] t]; split; reflexivity.
Qed.

(** When [maxImageSize] is missing or is not a number, no image is too
    big: [transformImage] answers 200 or 500 only. *)
Theorem unparsable_ceiling_disables_size_check
        (originalImagePath operationsPrefix : string)
        (r : response) (t : list call) :
  MAX_IMAGE_SIZE env = NaN ->
  run (transformImage W env originalImagePath operationsPrefix) = (Ok r, t) ->
  In (statusCode r) [200; 500].
Proof.
  intros Hmax.
  unfold run, transformImage, transformStage, bind, try, getObject,
    metadata, perform, ret.
  destruct (s3_getObject W _ _) as [obj|]; [|intros [= <- _]; cbn; auto].
  destruct (sharp_metadata W _) as [meta|]; [|discriminate].
  unfold transformBlock, bind, throw, ret.
  destruct (negb (truthy (lookup "org" _)));
    [destruct (negb (strictEq _ _) && negb (strictEq _ _));
     [intros [= <- _]; cbn; auto|]|];
    destruct (formatting _ _) as [formatted ct];
    unfold toBuffer, perform;
    (destruct (sharp_toBuffer W _ _) as [img|]; [|intros [= <- _]; cbn; auto]);
    rewrite respondStage_run, Hmax; cbn [exceeds];
    rewrite andb_false_r; intros [= <- _]; cbn; auto.
Qed.

End MoreHandlerRuns.

Lemma authorized_get_is_transformed_witness :
  snd (run (ImageProcessing.handler (Sample.world true) (Sample.env "4700000")
              (Scenario.request "GET" "/site/transformed/static-assets/a.jpg/w=400")))
  = snd (run (ImageProcessing.transformImage (Sample.world true)
                (Sample.env "4700000") "site/static-assets/a.jpg" "w=400")).
Proof.
  apply (authorized_get_is_transformed (Sample.world true) (Sample.env "4700000")
           (Scenario.request "GET" "/site/transformed/static-assets/a.jpg/w=400")
           [("x-origin-secret-header", "0123456789abcdef")]
           {| method := "GET";
              path := "/site/transformed/static-assets/a.jpg/w=400" |}
           "0123456789abcdef").
  - exact I.
  - reflexivity.
  - reflexivity.
  - discriminate.
  - reflexivity.
  - reflexivity.
  - reflexivity.
Defined.

Lemma unparsable_ceiling_disables_size_check_witness :
  exists r t,
    run (ImageProcessing.transformImage (Sample.world true) (Sample.env "unset")
           "sample/1.jpg" "w=400") = (Ok r, t)
    /\ In (statusCode r) [200; 500].
Proof.
  destruct (run (ImageProcessing.transformImage (Sample.world true)
                   (Sample.env "unset") "sample/1.jpg" "w=400"))
    as [[r|] t] eqn:E.
  - exists r, t. split; [reflexivity|].
    exact (unparsable_ceiling_disables_size_check
             (Sample.world true) (Sample.env "unset") _ _ _ _ eq_refl E).
  - vm_compute in E. discriminate E.
Defined.
